(** * TATIS360 intent router and audit-task store: a shallow embedding

    Sources embedded here:
    - [src/backend/python_codes/components/tatis360.py]: [detect_intent],
      the Cypher query functions and [generate_response];
    - [src/backend/python_codes/components/audit_tasks.py]: the task write
      operations ([create_audit_task], [update_task_status],
      [update_task_progress], [reassign_task], [add_task_note],
      [link_risk_to_task], [complete_task]). *)

From Stdlib Require Import Ascii String List ZArith Lia Bool.
From Stdlib Require Import Sorting.Sorted Sorting.Permutation.
Import ListNotations.

Open Scope list_scope.

(** ** Python text primitives on ASCII strings *)
Module Text.

Definition chars := list ascii.

Definition code (c : ascii) : nat := nat_of_ascii c.

(** [str.lower] on ASCII: 'A'..'Z' become 'a'..'z'. *)
Definition lower_char (c : ascii) : ascii :=
  if (65 <=? code c)%nat && (code c <=? 90)%nat
  then ascii_of_nat (code c + 32) else c.

Definition py_lower (s : chars) : chars := map lower_char s.

(** [str.isspace] on ASCII: \t \n \x0b \x0c \r, \x1c..\x1f and ' '. *)
Definition is_space (c : ascii) : bool :=
  ((9 <=? code c)%nat && (code c <=? 13)%nat)
  || ((28 <=? code c)%nat && (code c <=? 32)%nat).

Fixpoint lstrip (s : chars) : chars :=
  match s with
  | c :: s' => if is_space c then lstrip s' else s
  | [] => []
  end.

(** [str.strip()] with no argument. *)
Definition py_strip (s : chars) : chars := rev (lstrip (rev (lstrip s))).

(** [\w] of Python's [re] on ASCII: letters, digits and '_'. *)
Definition is_word (c : ascii) : bool :=
  ((48 <=? code c)%nat && (code c <=? 57)%nat)
  || ((65 <=? code c)%nat && (code c <=? 90)%nat)
  || ((97 <=? code c)%nat && (code c <=? 122)%nat)
  || Ascii.eqb c "_"%char.

Fixpoint prefixb (p s : chars) : bool :=
  match p, s with
  | [], _ => true
  | a :: p', b :: s' => Ascii.eqb a b && prefixb p' s'
  | _ :: _, [] => false
  end.

(** Python's [needle in haystack] on strings. *)
Fixpoint contains (needle hay : chars) : bool :=
  prefixb needle hay ||
  match hay with
  | [] => false
  | _ :: hay' => contains needle hay'
  end.

Definition s2c (s : string) : chars := list_ascii_of_string s.

End Text.
Import Text.

(** ** A backtracking matcher for the regular expressions of [detect_intent]

    [m r g s] lists, in the priority order of a backtracking engine such as
    Python's [re], every way [r] can match a prefix of [s]: each result is
    the value of capture group 1 and the unconsumed suffix.  Every pattern
    of [detect_intent] has at most one capturing group. *)
Module Regex.

Inductive regex :=
| REps
| RChr (c : ascii)
| RAny                       (* . : any character but a newline *)
| RWord                      (* \w *)
| RSeq (r1 r2 : regex)
| RAlt (r1 r2 : regex)       (* r1|r2, r1 tried first *)
| RStar (r : regex)          (* r*, greedy *)
| RGroup (r : regex).        (* (r), capture group 1 *)

Definition RPlus (r : regex) : regex := RSeq r (RStar r).

Definition caps := option chars.

(** Greedy iteration: one more iteration first, then stopping.  The fuel is
    the length of the subject, as every iteration consumes a character. *)
Fixpoint star_iter (f : caps -> chars -> list (caps * chars)) (n : nat)
    (g : caps) (s : chars) : list (caps * chars) :=
  match n with
  | O => [(g, s)]
  | S n' =>
      flat_map (fun p => if (length (snd p) <? length s)%nat
                         then star_iter f n' (fst p) (snd p) else [])
               (f g s)
      ++ [(g, s)]
  end.

Fixpoint m (r : regex) (g : caps) (s : chars) : list (caps * chars) :=
  match r with
  | REps => [(g, s)]
  | RChr c =>
      match s with
      | d :: s' => if Ascii.eqb c d then [(g, s')] else []
      | [] => []
      end
  | RAny =>
      match s with
      | d :: s' => if Ascii.eqb d "010"%char then [] else [(g, s')]
      | [] => []
      end
  | RWord =>
      match s with
      | d :: s' => if is_word d then [(g, s')] else []
      | [] => []
      end
  | RSeq r1 r2 => flat_map (fun p => m r2 (fst p) (snd p)) (m r1 g s)
  | RAlt r1 r2 => m r1 g s ++ m r2 g s
  | RStar r1 => star_iter (m r1) (length s) g s
  | RGroup r1 =>
      map (fun p => (Some (firstn (length s - length (snd p)) s), snd p))
          (m r1 g s)
  end.

(** [re.search]: the first start position with a match, and there the
    first match in priority order; the result is group 1. *)
Fixpoint search (r : regex) (s : chars) : option caps :=
  match m r None s with
  | p :: _ => Some (fst p)
  | [] =>
      match s with
      | [] => None
      | _ :: s' => search r s'
      end
  end.

Fixpoint has_group (r : regex) : bool :=
  match r with
  | RGroup _ => true
  | RSeq r1 r2 | RAlt r1 r2 => has_group r1 || has_group r2
  | RStar r1 => has_group r1
  | _ => false
  end.

(** A literal text followed by [k]. *)
Fixpoint lit (l : chars) (k : regex) : regex :=
  match l with
  | [] => k
  | c :: l' => RSeq (RChr c) (lit l' k)
  end.

Definition L (s : string) (k : regex) : regex := lit (s2c s) k.

End Regex.
Import Regex.

(** ** [detect_intent] *)
Module Intent.

(** The patterns, in the order of the source. *)
(* r'search (\w+)' and its three siblings *)
Definition kw_word (kw : string) : regex := L kw (L " " (RGroup (RPlus RWord))).
(* r'risk.*(\w+)' and the like *)
Definition kw_any_word (kw : string) : regex :=
  L kw (RSeq (RStar RAny) (RGroup (RPlus RWord))).
(* r'high.*impact' and the like *)
Definition kw_any_kw (kw1 kw2 : string) : regex :=
  L kw1 (RSeq (RStar RAny) (L kw2 REps)).

(* r'search .* (?:taxpayer|company) (.+)' *)
Definition search_name_pat1 : regex :=
  L "search " (RSeq (RStar RAny)
    (L " " (RSeq (RAlt (L "taxpayer" REps) (L "company" REps))
                 (L " " (RGroup (RPlus RAny)))))).
(* r'find .* (.+)' *)
Definition search_name_pat2 : regex :=
  L "find " (RSeq (RStar RAny) (L " " (RGroup (RPlus RAny)))).

Record intent_config := {
  ic_intent : string;
  ic_patterns : list regex;
  ic_keywords : list string
}.

(** The [intents] dict; a Python dict iterates in insertion order. *)
Definition intents : list intent_config := [
  {| ic_intent := "search_tin";
     ic_patterns := [kw_word "search"; kw_word "find"; kw_word "tin"; kw_word "taxpayer"];
     ic_keywords := ["tin"; "search"; "find"; "taxpayer"] |};
  {| ic_intent := "search_name";
     ic_patterns := [search_name_pat1; search_name_pat2];
     ic_keywords := ["name"; "company"; "business"] |};
  {| ic_intent := "risk_analysis";
     ic_patterns := [kw_any_word "risk"; L "analyze risk" REps];
     ic_keywords := ["risk"; "flagged"; "exposure"; "profile"] |};
  {| ic_intent := "related";
     ic_patterns := [kw_any_word "similar"; kw_any_word "related"; kw_any_word "network"];
     ic_keywords := ["similar"; "related"; "network"; "connected"] |};
  {| ic_intent := "pathway";
     ic_patterns := [kw_any_word "evidence"; kw_any_word "pathway"];
     ic_keywords := ["evidence"; "pathway"; "details"] |};
  {| ic_intent := "sector_analysis";
     ic_patterns := [kw_word "sector"; kw_word "industry"];
     ic_keywords := ["sector"; "industry"; "agriculture"; "manufacturing"; "services"] |};
  {| ic_intent := "high_impact";
     ic_patterns := [kw_any_kw "high" "impact"; kw_any_kw "top" "cases"; L "priority" REps];
     ic_keywords := ["high"; "impact"; "priority"; "urgent"] |}
]%string.

(** [params]: [None] is the empty dict [{}]; [Some v] is
    [{'extracted_value': v}], where [v] is [None] when the pattern has no
    capturing group. *)
Definition params := option (option chars).

(** [match.group(1) if match.groups() else None] *)
Fixpoint first_match (pats : list regex) (s : chars) : option (option chars) :=
  match pats with
  | [] => None
  | p :: ps =>
      match search p s with
      | Some g => Some (if has_group p then g else None)
      | None => first_match ps s
      end
  end.

Definition keyword_hit (c : intent_config) (s : chars) : bool :=
  existsb (fun k => contains (s2c k) s) (ic_keywords c).

(** The loop over [intents.items()]: the patterns of a definition, then its
    keywords, then the next definition. *)
Fixpoint detect_loop (cs : list intent_config) (s : chars) : string * params :=
  match cs with
  | [] => ("help"%string, None)
  | c :: cs' =>
      match first_match (ic_patterns c) s with
      | Some v => (ic_intent c, Some v)
      | None =>
          if keyword_hit c s then (ic_intent c, None)
          else detect_loop cs' s
      end
  end.

Definition normalize (user_input : string) : chars :=
  py_strip (py_lower (s2c user_input)).

Definition detect_intent (user_input : string) : string * params :=
  detect_loop intents (normalize user_input).

Definition supported_intents : list string :=
  ["search_tin"; "search_name"; "risk_analysis"; "related"; "pathway";
   "sector_analysis"; "high_impact"; "help"]%string.

End Intent.
Import Intent.

(** ** The graph store as seen by the chatbot

    [graph.run(query, ...).data()] either raises or returns the rows of
    the query.  A [store] gives, for each query function of [tatis360.py],
    that outcome: [None] when [graph.run] raises, [Some rows] otherwise. *)
Module Store.

Record taxpayer := mkTaxpayer {
  TIN : string;
  TaxpayerName : string;
  Region : string;
  Sector : string;
  ComplianceStatus : string
}.

Record risk_flag := mkRiskFlag {
  RiskID : string;
  RiskName : string;
  Severity : string
}.

(** One entry of [risks: collect(DISTINCT {riskId: rf.RiskID, ...})]: the
    fields are null when the [OPTIONAL MATCH] found no risk flag. *)
Record risk_entry := mkRiskEntry {
  re_riskId : option string;
  re_riskName : option string;
  re_severity : option string;
  re_exposureAmount : option Z;
  re_detectedDate : option string
}.

(** One entry of [itReturns] or [efrisReturns]. *)
Record return_entry := mkReturnEntry {
  ret_returnId : option string;
  ret_period : option string;
  ret_amount : option Z
}.

(** [result] of [search_taxpayer_by_tin]. *)
Record tin_record := mkTinRecord {
  tr_taxpayer : taxpayer;
  tr_risks : list risk_entry;
  tr_itReturns : list return_entry;
  tr_efrisReturns : list return_entry
}.

(** [taxpayer] of [search_taxpayer_by_name]. *)
Record name_row := mkNameRow {
  nr_taxpayer : taxpayer;
  nr_riskCount : nat;
  nr_totalExposure : Z
}.

(** [related] of [find_related_taxpayers]; the similarity score is kept in
    tenths, [ROUND(_, 1)] giving one decimal. *)
Record related_row := mkRelatedRow {
  rr_taxpayer : taxpayer;
  rr_sharedRisks : nat;
  rr_similarityScore_tenths : Z;
  rr_exposure : Z
}.

(** [pathway] of [get_risk_pathway]. *)
Record pathway_row := mkPathwayRow {
  pw_riskId : option string;
  pw_riskName : option string;
  pw_exposureAmount : option Z;
  pw_detectedDate : option string;
  pw_variance : option Z
}.

(** [case] of [find_high_impact_cases]: the query with a risk id returns
    one row per relationship, the one without returns one row per taxpayer. *)
Inductive case_row :=
| CaseByRisk (t : taxpayer) (rf : risk_flag) (exposure : Z) (detectedDate : string)
| CaseTotal (t : taxpayer) (riskCount : nat) (totalExposure : Z).

Definition case_exposure (c : case_row) : Z :=
  match c with
  | CaseByRisk _ _ e _ => e
  | CaseTotal _ _ e => e
  end.

(** [riskProfile] of [get_sector_risk_profile]. *)
Record profile_row := mkProfileRow {
  pr_risk : risk_flag;
  pr_prevalence : nat;
  pr_totalExposure : Z;
  pr_averageExposure : Z
}.

Record store := mkStore {
  run_tin : string -> option (list tin_record);
  run_name : option string -> option (list name_row);
  run_related : string -> option (list related_row);
  run_pathway : string -> option string -> option (list pathway_row);
  run_high : option string -> Z -> option (list case_row);
  run_sector : option string -> option (list profile_row)
}.

(** The queries sent to the store, with their parameters. *)
Inductive query :=
| QTin (tin : string)
| QName (name : option string)
| QRelated (tin : string)
| QPathway (tin : string) (risk_id : option string)
| QHigh (risk_id : option string) (min_exposure : Z)
| QSector (sector : option string).

(** A writer monad recording the queries a computation sends. *)
Definition W (A : Type) : Type := (list query * A)%type.
Definition ret {A} (a : A) : W A := ([], a).
Definition bind {A B} (c : W A) (k : A -> W B) : W B :=
  let (q1, a) := c in let (q2, b) := k a in (q1 ++ q2, b).
Notation "x <- c ;; k" := (bind c (fun x => k)) (at level 61, c at next level, right associativity).

Definition head_or_none {A} (r : option (list A)) : option A :=
  match r with
  | Some (x :: _) => Some x
  | _ => None
  end.

Definition rows_or_empty {A} (r : option (list A)) : list A :=
  match r with
  | Some rows => rows
  | None => []
  end.

(** [1e9], the default [min_exposure]. *)
Definition one_billion : Z := 1000000000.

(** The query functions: each catches every exception of [graph.run] and
    returns [None] or [[]] instead. *)
Definition search_taxpayer_by_tin (st : store) (tin : string) : W (option tin_record) :=
  ([QTin tin], head_or_none (run_tin st tin)).

Definition search_taxpayer_by_name (st : store) (name : option string) : W (list name_row) :=
  ([QName name], rows_or_empty (run_name st name)).

Definition find_related_taxpayers (st : store) (tin : string) : W (list related_row) :=
  ([QRelated tin], rows_or_empty (run_related st tin)).

Definition get_risk_pathway (st : store) (tin : string) (risk_id : option string)
  : W (option pathway_row) :=
  ([QPathway tin risk_id], head_or_none (run_pathway st tin risk_id)).

Definition find_high_impact_cases (st : store) (risk_id : option string) (min_exposure : Z)
  : W (list case_row) :=
  ([QHigh risk_id min_exposure], rows_or_empty (run_high st risk_id min_exposure)).

Definition get_sector_risk_profile (st : store) (sector : option string) : W (list profile_row) :=
  ([QSector sector], rows_or_empty (run_sector st sector)).

End Store.
Import Store.

(** ** [generate_response] *)
Module Respond.

(** The message of each [return] of [generate_response]; the text layout of
    the f-strings is left out, their data kept. *)
Inductive response :=
| FoundTaxpayer (r : tin_record) (risk_count : nat) (exposure : Z)
    (it_returns efris_returns : nat) (action : string)   (* "✅ Found Taxpayer" *)
| TinNotFound (tin : string)                    (* "❌ Taxpayer with TIN .. not found" *)
| AskTin                                        (* "❓ Please provide a TIN number to search" *)
| FoundNames (n : nat) (name : option string)   (* "✅ Found n taxpayers matching .." *)
| NoNames (name : option string)                (* "❌ No taxpayers found with name .." *)
| FoundRelated (n : nat) (tin : string)         (* "✅ Found n taxpayers with similar .." *)
| NoRelated                                     (* "❌ No related taxpayers found" *)
| AskTinRelated                                 (* "❓ Please provide a TIN to find related .." *)
| FoundPathway (name : string) (risk_id : option string) (risk_name : option string)
    (exposure : Z) (detected : option string)   (* "✅ Evidence Pathway for .." *)
| NoPathway                                     (* "❌ No evidence pathway found" *)
| AskTinPathway                                 (* "❓ Please provide a TIN" *)
| FoundCases (n : nat)                          (* "✅ Found n high-impact audit cases .." *)
| NoCases                                       (* "❌ No high-impact cases found" *)
| SectorProfile (sector : option string) (n : nat) (* "✅ Risk Profile for .. Sector" *)
| NoSectorData (sector : option string)         (* "❌ No data available for .. sector" *)
| HelpText.                                     (* the capability summary *)

(** The second component of the returned pair. *)
Inductive viz :=
| VNone                                         (* {} *)
| VTaxpayer (r : tin_record)
| VSearchResults (rows : list name_row)
| VRelated (rows : list related_row)
| VPathway (p : pathway_row)
| VCases (rows : list case_row)
| VSector (rows : list profile_row).

Inductive py_exc := TypeError.

Inductive outcome :=
| Returned (resp : response) (v : viz)
| Raised (e : py_exc).

(** The kind of a message, read off its leading marker: "❓" prompts for a
    value, "❌" reports that nothing was found, "✅" reports a result. *)
Inductive kind := KPrompt | KEmpty | KResult | KHelp.

Definition kind_of (r : response) : kind :=
  match r with
  | AskTin | AskTinRelated | AskTinPathway => KPrompt
  | TinNotFound _ | NoNames _ | NoRelated | NoPathway | NoCases | NoSectorData _ => KEmpty
  | FoundTaxpayer _ _ _ _ _ _ | FoundNames _ _ | FoundRelated _ _ | FoundPathway _ _ _ _ _
  | FoundCases _ | SectorProfile _ _ => KResult
  | HelpText => KHelp
  end.

(** [params.get('extracted_value')] *)
Definition pget (p : params) : option chars :=
  match p with
  | Some v => v
  | None => None
  end.

(** [params.get('extracted_value', d)] *)
Definition pget_default (p : params) (d : string) : option string :=
  match p with
  | Some (Some v) => Some (string_of_list_ascii v)
  | Some None => None
  | None => Some d
  end.

(** [if tin:] on a string or [None]. *)
Definition truthy (v : option chars) : option string :=
  match v with
  | Some (c :: cs) => Some (string_of_list_ascii (c :: cs))
  | _ => None
  end.

(** [sum([r.get('exposureAmount', 0) for r in risks if r])]: every entry is
    a non-empty map, so all are kept; a null amount makes [+] raise. *)
Fixpoint sum_exposure (rs : list risk_entry) : option Z :=
  match rs with
  | [] => Some 0%Z
  | r :: rs' =>
      match re_exposureAmount r, sum_exposure rs' with
      | Some e, Some s => Some (e + s)%Z
      | _, _ => None
      end
  end.

(** The recommended action of the found-taxpayer message. *)
Definition recommended_action (risk_count : nat) : string :=
  if (10 <=? risk_count)%nat then "CRITICAL - Immediate Audit"
  else if (5 <=? risk_count)%nat then "HIGH PRIORITY - Schedule Audit"
  else if (2 <=? risk_count)%nat then "MEDIUM - Review Risk Profile"
  else "LOW - Routine Monitoring".

Definition generate_response (st : store) (intent : string) (p : params) : W outcome :=
  if String.eqb intent "search_tin" then
    match truthy (pget p) with
    | Some tin =>
        res <- search_taxpayer_by_tin st tin ;;
        match res with
        | Some r =>
            let risk_count := length (tr_risks r) in
            match sum_exposure (tr_risks r) with
            | Some exposure =>
                ret (Returned
                       (FoundTaxpayer r risk_count exposure
                          (length (tr_itReturns r)) (length (tr_efrisReturns r))
                          (recommended_action risk_count))
                       (VTaxpayer r))
            | None => ret (Raised TypeError)
            end
        | None => ret (Returned (TinNotFound tin) VNone)
        end
    | None => ret (Returned AskTin VNone)
    end
  else if String.eqb intent "search_name" then
    let name := pget_default p "" in
    results <- search_taxpayer_by_name st name ;;
    match results with
    | [] => ret (Returned (NoNames name) VNone)
    | _ :: _ => ret (Returned (FoundNames (length results) name) (VSearchResults results))
    end
  else if String.eqb intent "related" then
    match truthy (pget p) with
    | Some tin =>
        related <- find_related_taxpayers st tin ;;
        match related with
        | [] => ret (Returned NoRelated VNone)
        | _ :: _ => ret (Returned (FoundRelated (length related) tin) (VRelated related))
        end
    | None => ret (Returned AskTinRelated VNone)
    end
  else if String.eqb intent "pathway" then
    match truthy (pget p) with
    | Some tin =>
        taxpayer <- search_taxpayer_by_tin st tin ;;
        match taxpayer with
        | Some t =>
            match tr_risks t with
            | first_risk :: _ =>
                let risk_id := re_riskId first_risk in
                pathway <- get_risk_pathway st tin risk_id ;;
                match pathway with
                | Some pw =>
                    match pw_exposureAmount pw with
                    | Some e =>
                        ret (Returned
                               (FoundPathway (TaxpayerName (tr_taxpayer t)) risk_id
                                  (pw_riskName pw) e (pw_detectedDate pw))
                               (VPathway pw))
                    | None => ret (Raised TypeError)
                    end
                | None => ret (Returned NoPathway VNone)
                end
            | [] => ret (Returned NoPathway VNone)
            end
        | None => ret (Returned NoPathway VNone)
        end
    | None => ret (Returned AskTinPathway VNone)
    end
  else if String.eqb intent "high_impact" then
    cases <- find_high_impact_cases st None one_billion ;;
    match cases with
    | [] => ret (Returned NoCases VNone)
    | _ :: _ => ret (Returned (FoundCases (length cases)) (VCases cases))
    end
  else if String.eqb intent "sector_analysis" then
    let sector := pget_default p "Manufacturing" in
    profile <- get_sector_risk_profile st sector ;;
    match profile with
    | [] => ret (Returned (NoSectorData sector) VNone)
    | _ :: _ => ret (Returned (SectorProfile sector (length profile)) (VSector profile))
    end
  else ret (Returned HelpText VNone).

(** The stores used as concrete inputs. *)
Definition empty_store : store :=
  mkStore (fun _ => Some []) (fun _ => Some []) (fun _ => Some [])
          (fun _ _ => Some []) (fun _ _ => Some []) (fun _ => Some []).

Definition failing_store : store :=
  mkStore (fun _ => None) (fun _ => None) (fun _ => None)
          (fun _ _ => None) (fun _ _ => None) (fun _ => None).

(** The store [st] with every raised query answered by zero rows. *)
Definition errors_as_empty (st : store) : store :=
  mkStore (fun t => Some (rows_or_empty (run_tin st t)))
          (fun n => Some (rows_or_empty (run_name st n)))
          (fun t => Some (rows_or_empty (run_related st t)))
          (fun t r => Some (rows_or_empty (run_pathway st t r)))
          (fun r e => Some (rows_or_empty (run_high st r e)))
          (fun s => Some (rows_or_empty (run_sector st s))).

End Respond.
Import Respond.

(** ** The Cypher of the search queries, evaluated on a property graph

    Nodes are identified with their property records; a [FLAGGED_BY]
    relationship carries its two end nodes.  [ORDER BY k DESC] is a
    stable insertion sort on [k] (Cypher leaves the order of ties open),
    [LIMIT n] is [firstn n], and implicit grouping keeps groups in order of
    first appearance. *)
Module Cypher.

Record flagged_by := mkFlagged {
  fb_taxpayer : taxpayer;
  fb_risk : risk_flag;
  fb_ExposureAmount : Z;
  fb_DetectedDate : string
}.

Record graph := mkGraph {
  g_taxpayers : list taxpayer;
  g_flagged : list flagged_by
}.

Definition taxpayer_eqb (a b : taxpayer) : bool :=
  String.eqb (TIN a) (TIN b) && String.eqb (TaxpayerName a) (TaxpayerName b)
  && String.eqb (Region a) (Region b) && String.eqb (Sector a) (Sector b)
  && String.eqb (ComplianceStatus a) (ComplianceStatus b).

Definition risk_flag_eqb (a b : risk_flag) : bool :=
  String.eqb (RiskID a) (RiskID b) && String.eqb (RiskName a) (RiskName b)
  && String.eqb (Severity a) (Severity b).

Section Generic.
Context {K A : Type} (eqb : K -> K -> bool).

Fixpoint add_to_groups (k : K) (a : A) (gs : list (K * list A)) : list (K * list A) :=
  match gs with
  | [] => [(k, [a])]
  | (k', xs) :: gs' =>
      if eqb k k' then (k', xs ++ [a]) :: gs' else (k', xs) :: add_to_groups k a gs'
  end.

(** Implicit grouping of aggregation by the key [key]. *)
Definition group_by (key : A -> K) (rows : list A) : list (K * list A) :=
  fold_left (fun gs r => add_to_groups (key r) r gs) rows [].

(** [COUNT(DISTINCT _)] keeps the first occurrence of each value. *)
Fixpoint dedup (l : list K) : list K :=
  match l with
  | [] => []
  | x :: l' => if existsb (eqb x) l' then dedup l' else x :: dedup l'
  end.

End Generic.

Section Sort.
Context {A : Type} (key : A -> Z).

Fixpoint insert_desc (x : A) (l : list A) : list A :=
  match l with
  | [] => [x]
  | y :: l' => if (key y <? key x)%Z then x :: l else y :: insert_desc x l'
  end.

(** [ORDER BY key DESC] *)
Definition sort_desc (l : list A) : list A := fold_right insert_desc [] l.

End Sort.

Definition sumZ (l : list Z) : Z := fold_right Z.add 0%Z l.

(** [ROUND(a / b, 0)] for [a >= 0], [b > 0], halves rounded up. *)
Definition round_half_up_div (a b : Z) : Z := ((2 * a + b) / (2 * b))%Z.

(** [ROUND(100.0 * shared_risk_count / 18, 1)], in tenths. *)
Definition similarity_tenths (shared : nat) : Z :=
  round_half_up_div (10 * (100 * Z.of_nat shared)) 18.

(** [MATCH (t:Taxpayer) WHERE toLower(t.TaxpayerName) CONTAINS toLower($name)
     OPTIONAL MATCH (t)-[flagged:FLAGGED_BY]->(rf:RiskFlag)
     RETURN {.., riskCount: COUNT(DISTINCT rf),
             totalExposure: SUM(flagged.ExposureAmount)} AS taxpayer
     ORDER BY totalExposure DESC LIMIT 10].
    A null [$name] makes the [WHERE] null, so no taxpayer passes.
    As written, [ORDER BY totalExposure] names a key of the returned map,
    not a variable in scope, so Neo4j rejects the query and the store raises
    ([run_name] gives [None] in [runs_cypher]); [name_query] is the answer of
    the query with the order on that key, which a store may give instead. *)
Definition name_query (g : graph) (name : option string) : list name_row :=
  match name with
  | None => []
  | Some n =>
      let ts := filter (fun t => contains (py_lower (s2c n)) (py_lower (s2c (TaxpayerName t))))
                       (g_taxpayers g) in
      let rows := flat_map (fun t =>
                    match filter (fun e => taxpayer_eqb (fb_taxpayer e) t) (g_flagged g) with
                    | [] => [(t, None)]
                    | es => map (fun e => (t, Some e)) es
                    end) ts in
      let groups := group_by taxpayer_eqb fst rows in
      let out := map (fun '(t, rs) =>
                   let es := flat_map (fun r => match snd r with Some e => [e] | None => [] end) rs in
                   mkNameRow t (length (dedup risk_flag_eqb (map fb_risk es)))
                             (sumZ (map fb_ExposureAmount es))) groups in
      firstn 10 (sort_desc nr_totalExposure out)
  end.

(** The row pairs [(flagged, related)] of
    [MATCH (t:Taxpayer {TIN: $tin})-[flagged:FLAGGED_BY]->(rf:RiskFlag)
     MATCH (rf)<-[related:FLAGGED_BY]-(t2:Taxpayer) WHERE t2.TIN <> $tin]. *)
Definition related_pairs (g : graph) (tin : string) : list (flagged_by * flagged_by) :=
  flat_map (fun e1 =>
    if String.eqb (TIN (fb_taxpayer e1)) tin then
      flat_map (fun e2 =>
        if risk_flag_eqb (fb_risk e2) (fb_risk e1)
           && negb (String.eqb (TIN (fb_taxpayer e2)) tin)
        then [(e1, e2)] else []) (g_flagged g)
    else []) (g_flagged g).

(** [WITH t2, COUNT(DISTINCT rf) AS shared_risk_count,
          SUM(related.ExposureAmount) AS avg_exposure
     RETURN {.., sharedRisks: shared_risk_count,
             similarityScore: ROUND(100.0 * shared_risk_count / 18, 1),
             exposure: ROUND(avg_exposure, 0)} AS related
     ORDER BY shared_risk_count DESC LIMIT 10] *)
Definition related_query (g : graph) (tin : string) : list related_row :=
  let groups := group_by taxpayer_eqb (fun p => fb_taxpayer (snd p)) (related_pairs g tin) in
  let out := map (fun '(t2, ps) =>
               let k := length (dedup risk_flag_eqb (map (fun p => fb_risk (fst p)) ps)) in
               mkRelatedRow t2 k (similarity_tenths k)
                            (sumZ (map (fun p => fb_ExposureAmount (snd p)) ps))) groups in
  firstn 10 (sort_desc (fun r => Z.of_nat (rr_sharedRisks r)) out).

(** The two queries of [find_high_impact_cases].  As written, their
    [ORDER BY exposure] and [ORDER BY totalExposure] name keys of the
    returned map, not variables in scope, so Neo4j rejects them and the store
    raises ([run_high] gives [None] in [runs_cypher]); [high_query] is the
    answer with the order on those keys, which a store may give instead. *)
Definition high_query (g : graph) (risk_id : option string) (min_exposure : Z) : list case_row :=
  match risk_id with
  | Some rid =>
      let es := filter (fun e => String.eqb (RiskID (fb_risk e)) rid
                                 && (min_exposure <=? fb_ExposureAmount e)%Z) (g_flagged g) in
      let out := map (fun e => CaseByRisk (fb_taxpayer e) (fb_risk e)
                                          (fb_ExposureAmount e) (fb_DetectedDate e)) es in
      firstn 20 (sort_desc case_exposure out)
  | None =>
      let es := filter (fun e => (min_exposure <=? fb_ExposureAmount e)%Z) (g_flagged g) in
      let groups := group_by taxpayer_eqb fb_taxpayer es in
      let out := map (fun '(t, es') =>
                   CaseTotal t (length (dedup risk_flag_eqb (map fb_risk es')))
                             (sumZ (map fb_ExposureAmount es'))) groups in
      firstn 20 (sort_desc case_exposure out)
  end.

(** A store whose search queries either raise or answer as Cypher does on [g]. *)
Definition runs_cypher (g : graph) (st : store) : Prop :=
  (forall n, run_name st n = None \/ run_name st n = Some (name_query g n))
  /\ (forall t, run_related st t = None \/ run_related st t = Some (related_query g t))
  /\ (forall r e, run_high st r e = None \/ run_high st r e = Some (high_query g r e)).

Definition cypher_store (g : graph) : store :=
  mkStore (fun _ => Some []) (fun n => Some (name_query g n))
          (fun t => Some (related_query g t)) (fun _ _ => Some [])
          (fun r e => Some (high_query g r e)) (fun _ => Some []).

End Cypher.
Import Cypher.

(** ** The audit-task write operations of [audit_tasks.py]

    [datetime()] is the clock value [now]; the
    [datetime.now().strftime('%Y-%m-%d %H:%M')] prefix of a note is [stamp];
    [randomUUID()] is [uuid].  A query that raises is rolled back by the
    store and leaves the graph unchanged. *)
Module Tasks.

Record task := mkTask {
  TaskID : string;
  TaskName : string;
  Description : string;
  Status : string;
  Priority : string;
  AssignedDate : Z;
  DueDate : Z;
  ExposureAmount : Z;
  ProgressPercent : Z;
  Notes : option string;
  CreatedDate : Z;
  LastUpdated : option Z;
  CompletedDate : option Z;
  assigned_auditor : string;     (* the [ASSIGNED_TO] edge *)
  target_tin : string;           (* the [TARGETS] edge *)
  linked_risks : list string     (* the [LINKED_TO] edges *)
}.

Record db := mkDb {
  tasks : list task;
  auditor_ids : list string;
  taxpayer_tins : list string;
  risk_ids : list string
}.

Record task_data := mkTaskData {
  td_taxpayer_tin : string;
  td_auditor_id : string;
  td_task_name : string;
  td_description : string;
  td_priority : string;
  td_due_date : Z;
  td_exposure : Z;
  td_notes : string;
  td_assigned_by : string;
  td_risk_ids : list string
}.

Definition mem (x : string) (l : list string) : bool := existsb (String.eqb x) l.

(** [SET] on every task matched by [MATCH (task:AuditTask {TaskID: $task_id})]. *)
Definition set_task (d : db) (task_id : string) (f : task -> task) : db :=
  mkDb (map (fun t => if String.eqb (TaskID t) task_id then f t else t) (tasks d))
       (auditor_ids d) (taxpayer_tins d) (risk_ids d).

Definition has_task (d : db) (task_id : string) : bool :=
  existsb (fun t => String.eqb (TaskID t) task_id) (tasks d).

Definition with_status (t : task) (s : string) (lu : option Z) (cd : option Z) : task :=
  mkTask (TaskID t) (TaskName t) (Description t) s (Priority t) (AssignedDate t)
         (DueDate t) (ExposureAmount t) (ProgressPercent t) (Notes t) (CreatedDate t)
         lu cd (assigned_auditor t) (target_tin t) (linked_risks t).

Definition with_progress (t : task) (p : Z) (lu : option Z) : task :=
  mkTask (TaskID t) (TaskName t) (Description t) (Status t) (Priority t) (AssignedDate t)
         (DueDate t) (ExposureAmount t) p (Notes t) (CreatedDate t)
         lu (CompletedDate t) (assigned_auditor t) (target_tin t) (linked_risks t).

Definition with_notes (t : task) (n : option string) (lu : option Z) : task :=
  mkTask (TaskID t) (TaskName t) (Description t) (Status t) (Priority t) (AssignedDate t)
         (DueDate t) (ExposureAmount t) (ProgressPercent t) n (CreatedDate t)
         lu (CompletedDate t) (assigned_auditor t) (target_tin t) (linked_risks t).

Definition with_auditor (t : task) (a : string) (lu : option Z) : task :=
  mkTask (TaskID t) (TaskName t) (Description t) (Status t) (Priority t) (AssignedDate t)
         (DueDate t) (ExposureAmount t) (ProgressPercent t) (Notes t) (CreatedDate t)
         lu (CompletedDate t) a (target_tin t) (linked_risks t).

Definition with_link (t : task) (rid : string) (lu : option Z) : task :=
  mkTask (TaskID t) (TaskName t) (Description t) (Status t) (Priority t) (AssignedDate t)
         (DueDate t) (ExposureAmount t) (ProgressPercent t) (Notes t) (CreatedDate t)
         lu (CompletedDate t) (assigned_auditor t) (target_tin t) (linked_risks t ++ [rid]).

(** [CASE WHEN task.Notes IS NULL THEN $note ELSE task.Notes + '\n' + $note END] *)
Definition append_note (old : option string) (note : string) : option string :=
  match old with
  | None => Some note
  | Some n => Some (n ++ String (ascii_of_nat 10) note)%string
  end.

Definition create_audit_task (d : db) (data : task_data) (uuid : string) (now : Z) : db * bool :=
  if mem (td_taxpayer_tin data) (taxpayer_tins d) && mem (td_auditor_id data) (auditor_ids d)
  then
    let t := mkTask uuid (td_task_name data) (td_description data) "Assigned"
                    (td_priority data) now (td_due_date data) (td_exposure data) 0
                    (Some (td_notes data)) now None None (td_auditor_id data)
                    (td_taxpayer_tin data)
                    (filter (fun r => mem r (td_risk_ids data)) (risk_ids d)) in
    (mkDb (tasks d ++ [t]) (auditor_ids d) (taxpayer_tins d) (risk_ids d),
     existsb (fun r => mem r (td_risk_ids data)) (risk_ids d))
  else (d, false).

Definition add_task_note (d : db) (task_id note stamp : string) (now : Z) : db * bool :=
  let text := ("[" ++ stamp ++ "] " ++ note)%string in
  (set_task d task_id (fun t => with_notes t (append_note (Notes t) text) (Some now)),
   has_task d task_id).

(** [OPTIONAL MATCH (task) WHERE task.Status = 'Completed'] only matches the
    already bound [task], which an optional match never turns into null: its
    [WHERE] filters nothing, and the following [SET task.CompletedDate =
    datetime()] runs on every update, whatever the new status. *)
Definition update_task_status (d : db) (task_id new_status notes stamp : string) (now : Z)
  : db * bool :=
  let d1 := set_task d task_id (fun t =>
              with_status t new_status (Some now) (Some now)) in
  let d2 := if String.eqb notes "" then d1
            else fst (add_task_note d1 task_id
                        ("Status: " ++ new_status ++ " - " ++ notes) stamp now) in
  (d2, has_task d task_id).

(** [progress=max(0, min(100, progress_percent))  # Clamp between 0-100] *)
Definition update_task_progress (d : db) (task_id : string) (progress_percent : Z) (now : Z)
  : db * bool :=
  let p := Z.max 0 (Z.min 100 progress_percent) in
  (set_task d task_id (fun t => with_progress t p (Some now)), has_task d task_id).

Definition reassign_task (d : db) (task_id new_auditor_id : string) (now : Z) : db * bool :=
  if mem new_auditor_id (auditor_ids d) then
    (set_task d task_id (fun t => with_auditor t new_auditor_id (Some now)), has_task d task_id)
  else (d, false).

Definition link_risk_to_task (d : db) (task_id risk_id : string) (now : Z) : db * bool :=
  if mem risk_id (risk_ids d) then
    (set_task d task_id (fun t => with_link t risk_id (Some now)), has_task d task_id)
  else (d, false).

Definition complete_task (d : db) (task_id completion_notes stamp : string) (now : Z)
  : db * bool :=
  let text := ("[COMPLETED " ++ stamp ++ "] " ++ completion_notes)%string in
  (set_task d task_id (fun t =>
     mkTask (TaskID t) (TaskName t) (Description t) "Completed" (Priority t)
            (AssignedDate t) (DueDate t) (ExposureAmount t) 100
            (append_note (Notes t) text) (CreatedDate t) (Some now) (Some now)
            (assigned_auditor t) (target_tin t) (linked_risks t)),
   has_task d task_id).

(** Every write operation of the task page. *)
Inductive task_op :=
| OpCreate (data : task_data) (uuid : string)
| OpStatus (task_id new_status notes : string)
| OpProgress (task_id : string) (progress_percent : Z)
| OpReassign (task_id new_auditor_id : string)
| OpNote (task_id note : string)
| OpLink (task_id risk_id : string)
| OpComplete (task_id completion_notes : string).

Definition exec (d : db) (op : task_op) (stamp : string) (now : Z) : db * bool :=
  match op with
  | OpCreate data uuid => create_audit_task d data uuid now
  | OpStatus id s n => update_task_status d id s n stamp now
  | OpProgress id p => update_task_progress d id p now
  | OpReassign id a => reassign_task d id a now
  | OpNote id n => add_task_note d id n stamp now
  | OpLink id r => link_risk_to_task d id r now
  | OpComplete id n => complete_task d id n stamp now
  end.

Definition progress_ok (d : db) : Prop :=
  Forall (fun t => (0 <= ProgressPercent t <= 100)%Z) (tasks d).

Definition find_task (d : db) (task_id : string) : option task :=
  find (fun t => String.eqb (TaskID t) task_id) (tasks d).

End Tasks.

(** * Spec-side definitions and fixtures *)

Definition no_hit (s : chars) (c : intent_config) : Prop :=
  first_match (ic_patterns c) s = None /\ keyword_hit c s = false.

Definition param_intents : list string := ["search_tin"; "related"; "pathway"]%string.

Definition action_rank (a : string) : nat :=
  if String.eqb a "CRITICAL - Immediate Audit" then 3
  else if String.eqb a "HIGH PRIORITY - Schedule Audit" then 2
  else if String.eqb a "MEDIUM - Review Risk Profile" then 1
  else 0.

Definition sample_taxpayer : taxpayer :=
  mkTaxpayer "1000012345" "Kampala Traders" "Central" "Retail" "Active".

Definition sample_risk (id : string) (amount : Z) : risk_entry :=
  mkRiskEntry (Some id) (Some id) (Some "High"%string) (Some amount) (Some "2024-01-01"%string).

Definition sample_record : tin_record :=
  mkTinRecord sample_taxpayer
    [sample_risk "R01" 2300000000; sample_risk "R02" 1; sample_risk "R03" 1;
     sample_risk "R04" 1; sample_risk "R05" 1] [] [].

Definition tin_store (rec : tin_record) : store :=
  mkStore (fun _ => Some [rec]) (fun _ => Some []) (fun _ => Some [])
          (fun _ _ => Some []) (fun _ _ => Some []) (fun _ => Some []).

Definition sample_found : response :=
  FoundTaxpayer sample_record 5 2300000004 0 0 "HIGH PRIORITY - Schedule Audit".

Section TaskFixtures.
Import Tasks.

Definition demo_db : db := (mkDb [] ["AUD1"] ["1000012345"] ["R01"])%string.

Definition demo_data : task_data :=
  (mkTaskData "1000012345" "AUD1" "Audit Kampala Traders" "" "High"
              1735689600000 2300000000 "" "System" ["R01"])%string.

(** Assigned, then In Progress, then Completed through the status page. *)
Definition status_path_db : db :=
  (let d1 := fst (create_audit_task demo_db demo_data "T1" 100) in
   let d2 := fst (update_task_status d1 "T1" "In Progress" "" "2025-01-01 09:00" 200) in
   fst (update_task_status d2 "T1" "Completed" "" "2025-01-02 09:00" 300))%string.

Definition demo_task : task :=
  (mkTask "T1" "Audit" "" "In Progress" "High" 100 1735689600000 2300000000 40
          None 100 None None "AUD1" "1000012345" [])%string.

End TaskFixtures.

Section GroupingDefs.
Context {K V : Type}.

Definition groups_ok (key : V -> K) (seen : list V) (gs : list (K * list V)) : Prop :=
  NoDup (map fst gs) /\
  (forall k xs, In (k, xs) gs -> xs <> [] /\ forall x, In x xs <-> In x seen /\ key x = k) /\
  (forall x, In x seen -> In (key x) (map fst gs)).

End GroupingDefs.

(** The risk flags of taxpayer [tin] that taxpayer [t2] is also flagged by. *)
Definition shared_flags (g : graph) (tin : string) (t2 : taxpayer) : list risk_flag :=
  map fb_risk (filter (fun e1 =>
    String.eqb (TIN (fb_taxpayer e1)) tin
    && existsb (fun e2 => taxpayer_eqb (fb_taxpayer e2) t2
                          && risk_flag_eqb (fb_risk e2) (fb_risk e1)) (g_flagged g))
    (g_flagged g)).

Definition tpn (n : string) : taxpayer := mkTaxpayer n ("Acme " ++ n) "Central" "Retail" "Active".
Definition rfn (n : string) : risk_flag := mkRiskFlag n n "High".

Definition ids : list string :=
  ["01"; "02"; "03"; "04"; "05"; "06"; "07"; "08"; "09"; "10"; "11"; "12"]%string.

(** Twelve taxpayers named "Acme ..", all flagged by R01 and R02 with an
    exposure of two billion each. *)
Definition big_graph : graph :=
  mkGraph (map tpn ids)
    (flat_map (fun n => [mkFlagged (tpn n) (rfn "R01") 2000000000 "2024-01-01";
                         mkFlagged (tpn n) (rfn "R02") 2000000000 "2024-01-01"]) ids)%string.

Definition starts_word (s : chars) : bool :=
  match s with
  | c :: _ => is_word c
  | [] => false
  end.

Fixpoint takew (s : chars) : chars :=
  match s with
  | c :: s' => if is_word c then c :: takew s' else []
  | [] => []
  end.

Fixpoint dropw (s : chars) : chars :=
  match s with
  | c :: s' => if is_word c then dropw s' else s
  | [] => []
  end.

(** The maximal word after the leftmost occurrence of [kw], one space and
    a word character in [t]. *)
Fixpoint word_after (kw t : chars) : option chars :=
  if prefixb (kw ++ [" "%char]) t && starts_word (skipn (length kw + 1) t)
  then Some (takew (skipn (length kw + 1) t))
  else match t with
       | [] => None
       | _ :: t' => word_after kw t'
       end.

Definition tab_find_input : string := "find" ++ String (ascii_of_nat 9) "uganda breweries".

(** * Further code of [tatis360.py]: the chat turn and the sector query *)

(** One turn of [main]: [detect_intent], then [generate_response] on its
    result; the reply and the queries it sent. *)
Definition chat (st : store) (user_input : string) : W outcome :=
  let (intent, params) := detect_intent user_input in
  generate_response st intent params.

(** The remainders [.*] leaves, longest first ([.] excludes the newline). *)
Fixpoint any_suffixes (s : chars) : list chars :=
  match s with
  | d :: s' => if Ascii.eqb d "010"%char then [s] else any_suffixes s' ++ [s]
  | [] => [[]]
  end.

Definition is_upper (c : ascii) : bool := (65 <=? code c)%nat && (code c <=? 90)%nat.

Definition has_upper (s : string) : bool := existsb is_upper (s2c s).

(** [MATCH (t:Taxpayer {Sector: $sector})-[flagged:FLAGGED_BY]->(rf:RiskFlag)
     WITH rf, COUNT(DISTINCT t) AS sector_taxpayers_flagged,
          SUM(flagged.ExposureAmount) AS sector_exposure,
          AVG(flagged.ExposureAmount) AS avg_exposure
     RETURN {..} AS riskProfile ORDER BY sector_exposure DESC].
    The property match is an exact, case-sensitive string equality; a null
    [$sector] matches no taxpayer.  [ROUND] of the average rounds halves up. *)
Definition sector_query (g : graph) (sector : option string) : list profile_row :=
  match sector with
  | None => []
  | Some s =>
      let es := filter (fun e => String.eqb (Sector (fb_taxpayer e)) s) (g_flagged g) in
      let groups := group_by risk_flag_eqb fb_risk es in
      let out := map (fun '(rf, es') =>
                   let total := sumZ (map fb_ExposureAmount es') in
                   mkProfileRow rf (length (dedup taxpayer_eqb (map fb_taxpayer es'))) total
                     (round_half_up_div total (Z.of_nat (length es')))) groups in
      sort_desc pr_totalExposure out
  end.

(** A store whose sector query either raises or answers as Cypher does on [g]. *)
Definition runs_sector (g : graph) (st : store) : Prop :=
  forall s, run_sector st s = None \/ run_sector st s = Some (sector_query g s).

Definition sector_store (g : graph) : store :=
  mkStore (fun _ => Some []) (fun _ => Some []) (fun _ => Some []) (fun _ _ => Some [])
          (fun _ _ => Some []) (fun sec => Some (sector_query g sec)).

(** One taxpayer of the manufacturing sector, flagged once. *)
Definition mills : taxpayer :=
  mkTaxpayer "1000000001" "Kampala Mills" "Central" "Manufacturing" "Active".
Definition mills_graph : graph :=
  mkGraph [mills] [mkFlagged mills (rfn "R01") 5000000 "2024-01-01"].

(** * Further code of [audit_tasks.py]: the read queries *)
Module TaskReads.
Import Tasks.

(** The task an update operation names; [None] for [create_audit_task]. *)
Definition op_task_id (op : task_op) : option string :=
  match op with
  | OpCreate _ _ => None
  | OpStatus id _ _ | OpProgress id _ | OpReassign id _ | OpNote id _
  | OpLink id _ | OpComplete id _ => Some id
  end.

(** [COUNT(DISTINCT task)] over the [ASSIGNED_TO] edges of the auditor [a]. *)
Definition assigned_count (d : db) (a : string) : nat :=
  length (filter (fun t => String.eqb (assigned_auditor t) a) (tasks d)).

(** [COUNT(DISTINCT CASE WHEN task.Status = 'In Progress' THEN task END)] *)
Definition in_progress_count (d : db) (a : string) : nat :=
  length (filter (fun t => String.eqb (assigned_auditor t) a
                           && String.eqb (Status t) "In Progress") (tasks d)).

(** [CASE WHEN task_count >= 5 THEN 'Full'
          WHEN task_count >= 3 THEN 'Medium' ELSE 'Available' END] *)
Definition capacity (task_count : nat) : string :=
  if (5 <=? task_count)%nat then "Full"
  else if (3 <=? task_count)%nat then "Medium" else "Available".

(** [auditor] of [fetch_auditor_list]; the name, e-mail, phone and region
    properties are left out. *)
Record auditor_row := mkAuditorRow {
  ar_auditorId : string;
  ar_assignedTasks : nat;
  ar_inProgress : nat;
  ar_capacity : string
}.

(** [MATCH (a:Auditor) OPTIONAL MATCH (a)-[:ASSIGNED_TO]->(task:AuditTask)
     WITH a, COUNT(DISTINCT task) AS task_count, .. ORDER BY task_count ASC];
    ties come in no specified order. *)
Definition fetch_auditor_list (d : db) : list auditor_row :=
  sort_desc (fun r => (- Z.of_nat (ar_assignedTasks r))%Z)
    (map (fun a => mkAuditorRow a (assigned_count d a) (in_progress_count d a)
                                (capacity (assigned_count d a)))
         (auditor_ids d)).

(** [task] of [fetch_auditor_tasks]; the taxpayer name is left out. *)
Record task_row := mkTaskRow {
  atr_taskId : string;
  atr_taskName : string;
  atr_taxpayerTin : string;
  atr_status : string;
  atr_priority : string;
  atr_dueDate : Z;
  atr_exposure : Z;
  atr_risksLinked : list string;
  atr_progressPercent : Z
}.

Fixpoint insert_by {A} (before : A -> A -> bool) (x : A) (l : list A) : list A :=
  match l with
  | [] => [x]
  | y :: l' => if before x y then x :: l else y :: insert_by before x l'
  end.

Definition sort_by {A} (before : A -> A -> bool) (l : list A) : list A :=
  fold_right (insert_by before) [] l.

(** [ORDER BY task.priority DESC, task.dueDate ASC]: the priority is the
    stored string, compared character by character. *)
Definition task_row_before (r1 r2 : task_row) : bool :=
  match String.compare (atr_priority r1) (atr_priority r2) with
  | Gt => true
  | Lt => false
  | Eq => (atr_dueDate r1 <? atr_dueDate r2)%Z
  end.

(** [MATCH (a:Auditor {AuditorID: $auditor_id})-[:ASSIGNED_TO]->(task:AuditTask)
     MATCH (task)-[:TARGETS]->(t:Taxpayer)
     OPTIONAL MATCH (task)-[:LINKED_TO]->(rf:RiskFlag) RETURN {..} AS task
     ORDER BY task.priority DESC, task.dueDate ASC] *)
Definition fetch_auditor_tasks (d : db) (auditor_id : string) : list task_row :=
  if mem auditor_id (auditor_ids d) then
    sort_by task_row_before
      (map (fun t => mkTaskRow (TaskID t) (TaskName t) (target_tin t) (Status t)
                       (Priority t) (DueDate t) (ExposureAmount t)
                       (dedup String.eqb (linked_risks t)) (ProgressPercent t))
           (filter (fun t => String.eqb (assigned_auditor t) auditor_id) (tasks d)))
  else [].

(** Every edge of a task ends at a node of the database. *)
Definition refs_ok (d : db) : Prop :=
  Forall (fun t => In (assigned_auditor t) (auditor_ids d)
                   /\ In (target_tin t) (taxpayer_tins d)
                   /\ Forall (fun r => In r (risk_ids d)) (linked_risks t)) (tasks d).

(** The properties no operation writes. *)
Definition same_fixed (t t' : task) : Prop :=
  TaskID t' = TaskID t /\ TaskName t' = TaskName t /\ Description t' = Description t
  /\ Priority t' = Priority t /\ AssignedDate t' = AssignedDate t /\ DueDate t' = DueDate t
  /\ ExposureAmount t' = ExposureAmount t /\ CreatedDate t' = CreatedDate t
  /\ target_tin t' = target_tin t.

Definition two_auditors_db : db :=
  (mkDb [] ["AUD1"; "AUD2"] ["1000012345"] ["R01"; "R02"])%string.

Definition prio_task (id prio : string) (due : Z) : task :=
  (mkTask id "Audit" "" "Assigned" prio 100 due 1000000 0 (Some "") 100 None None
          "AUD1" "1000012345" [])%string.

Definition prio_db : db :=
  (mkDb [prio_task "T1" "Critical" 10; prio_task "T2" "Low" 30; prio_task "T3" "High" 20;
         prio_task "T4" "Critical" 40]
        ["AUD1"] ["1000012345"] ["R01"])%string.

(** The row [fetch_auditor_tasks] gives for [prio_task id prio due]. *)
Definition prio_row (id prio : string) (due : Z) : task_row :=
  (mkTaskRow id "Audit" "1000012345" "Assigned" prio due 1000000 [] 0)%string.

End TaskReads.
Import TaskReads.

(** * Properties *)

(** ** The classifier *)
Section Classifier.

Lemma detect_loop_cases : forall cs s,
  (exists pre c post, cs = pre ++ c :: post /\ Forall (no_hit s) pre /\
     ((exists v, first_match (ic_patterns c) s = Some v /\
                 detect_loop cs s = (ic_intent c, Some v)) \/
      (first_match (ic_patterns c) s = None /\ keyword_hit c s = true /\
       detect_loop cs s = (ic_intent c, None))))
  \/ (Forall (no_hit s) cs /\ detect_loop cs s = ("help"%string, None)).
Proof.
  induction cs as [|c cs IH]; intros s.
  - right. split; [constructor | reflexivity].
  - destruct (first_match (ic_patterns c) s) as [v|] eqn:Hm.
    + left. exists [], c, cs. split; [reflexivity|]. split; [constructor|].
      left. exists v. split; [exact Hm|]. simpl. rewrite Hm. reflexivity.
    + destruct (keyword_hit c s) eqn:Hk.
      * left. exists [], c, cs. split; [reflexivity|]. split; [constructor|].
        right. split; [exact Hm|]. split; [exact Hk|]. simpl. rewrite Hm, Hk. reflexivity.
      * assert (Hstep : detect_loop (c :: cs) s = detect_loop cs s)
          by (simpl; rewrite Hm, Hk; reflexivity).
        rewrite Hstep.
        destruct (IH s) as [(pre & c' & post & Heq & Hpre & Hc) | (Hall & Hd)].
        -- left. exists (c :: pre), c', post. subst cs.
           split; [reflexivity|]. split; [constructor; [split; assumption | assumption]|].
           exact Hc.
        -- right. split; [constructor; [split; assumption | assumption] | exact Hd].
Qed.

Lemma detect_loop_in : forall cs s,
  In (fst (detect_loop cs s)) (map ic_intent cs ++ ["help"%string]).
Proof.
  induction cs as [|c cs IH]; intros s; simpl.
  - left. reflexivity.
  - destruct (first_match (ic_patterns c) s); [left; reflexivity|].
    destruct (keyword_hit c s); [left; reflexivity|].
    right. apply IH.
Qed.

Lemma detect_loop_help : forall cs s,
  ~ In "help"%string (map ic_intent cs) ->
  (fst (detect_loop cs s) = "help"%string <-> Forall (no_hit s) cs).
Proof.
  intros cs s Hn. destruct (detect_loop_cases cs s) as [(pre & c & post & -> & Hpre & Hc) | (Hall & Hd)].
  - split.
    + intros Hh. exfalso. apply Hn. rewrite map_app. apply in_or_app. right. simpl. left.
      destruct Hc as [(v & _ & Hd) | (_ & _ & Hd)]; rewrite Hd in Hh; exact Hh.
    + intros Hall. apply Forall_app in Hall. destruct Hall as [_ Hall].
      inversion Hall as [|? ? [Hm Hk] _]; subst.
      destruct Hc as [(v & Hv & _) | (_ & Hk' & _)]; congruence.
  - rewrite Hd. split; auto.
Qed.

End Classifier.

Lemma help_not_an_intent : ~ In "help"%string (map ic_intent intents).
Proof. simpl. intuition discriminate. Qed.

(** C1 (counterexample). On ["sector retail tin"] the pattern
    [sector (\w+)] of the sector definition matches, yet [detect_intent]
    returns the keyword-stage result of the earlier identifier-search
    definition, whose keyword ["tin"] occurs in the text. *)
Lemma C1_counterexample :
  In {| ic_intent := "sector_analysis"; ic_patterns := [kw_word "sector"; kw_word "industry"];
        ic_keywords := ["sector"; "industry"; "agriculture"; "manufacturing"; "services"] |}%string
     intents
  /\ first_match [kw_word "sector"; kw_word "industry"] (normalize "sector retail tin")
     = Some (Some (s2c "retail"))
  /\ detect_intent "sector retail tin" = ("search_tin"%string, None).
Proof.
  split; [simpl; intuition | split; vm_compute; reflexivity].
Qed.

(** C1 (amended). [detect_intent] walks the definitions in priority order
    and, for each, tries its patterns and then its keyword set before the
    next definition: the result is given by the first definition with a
    pattern match or a keyword hit (a pattern-stage result when one of its
    own patterns matches, a keyword-stage result otherwise), every earlier
    definition having neither; with no such definition it is [help]. *)
Theorem C1_per_definition_priority : forall user_input,
  let s := normalize user_input in
  (exists pre c post, intents = pre ++ c :: post /\ Forall (no_hit s) pre /\
     ((exists v, first_match (ic_patterns c) s = Some v /\
                 detect_intent user_input = (ic_intent c, Some v)) \/
      (first_match (ic_patterns c) s = None /\ keyword_hit c s = true /\
       detect_intent user_input = (ic_intent c, None))))
  \/ (Forall (no_hit s) intents /\ detect_intent user_input = ("help"%string, None)).
Proof.
  intros user_input s. unfold detect_intent. apply detect_loop_cases.
Qed.

(** C8. [detect_intent] is total (a Rocq function: it cannot raise), its
    tag is one of the eight supported tags ([search_tin] is
    search-by-identifier, [search_name] search-by-name, [related]
    find-related, [pathway] evidence-pathway, [high_impact]
    high-impact-cases), and it is [help] (with no parameters) exactly when
    no pattern and no keyword set of any definition matches. *)
Theorem C8_detect_intent_total : forall user_input,
  In (fst (detect_intent user_input)) supported_intents /\
  (detect_intent user_input = ("help"%string, None) <->
   Forall (no_hit (normalize user_input)) intents).
Proof.
  intros user_input. split.
  - unfold detect_intent. pose proof (detect_loop_in intents (normalize user_input)) as H.
    simpl in H. simpl. intuition.
  - unfold detect_intent. split.
    + intros H. apply (detect_loop_help intents (normalize user_input) help_not_an_intent).
      rewrite H. reflexivity.
    + intros H. destruct (detect_loop_cases intents (normalize user_input))
        as [(pre & c & post & Heq & Hpre & Hc) | (_ & Hd)]; [|exact Hd].
      exfalso. rewrite Heq in H. apply Forall_app in H. destruct H as [_ H].
      inversion H as [|? ? [Hm Hk] _]; subst.
      destruct Hc as [(v & Hv & _) | (_ & Hk' & _)]; congruence.
Qed.

(** ** The dispatcher *)
Section Dispatch.

(** C2 (counterexample). Search-by-name needs a name, yet with the
    parameter absent ([params = {}]) [generate_response] queries the store
    with the empty name rather than prompting for one. *)
Lemma C2_counterexample :
  fst (generate_response empty_store "search_name" None) = [QName (Some ""%string)]
  /\ snd (generate_response empty_store "search_name" None) = Returned (NoNames (Some ""%string)) VNone.
Proof. split; reflexivity. Qed.

(** C2 (amended). For search-by-identifier, find-related and
    evidence-pathway, a parameter that is absent, [None] or empty gives a
    prompt message with no payload and sends no query to the store.
    Search-by-name instead queries with the empty name and sector-analysis
    with the sector ["Manufacturing"]. *)
Theorem C2_prompt_without_store_access : forall st intent p,
  In intent param_intents -> truthy (pget p) = None ->
  (exists r, generate_response st intent p = ([], Returned r VNone) /\ kind_of r = KPrompt)
  /\ fst (generate_response st "search_name" None) = [QName (Some ""%string)]
  /\ fst (generate_response st "sector_analysis" None) = [QSector (Some "Manufacturing"%string)].
Proof.
  intros st intent p Hin Hp. split; [|split].
  - unfold generate_response. rewrite Hp.
    simpl in Hin. destruct Hin as [<- | [<- | [<- | []]]]; simpl;
      eexists; split; reflexivity.
  - unfold generate_response, bind, search_taxpayer_by_name. simpl.
    destruct (rows_or_empty (run_name st (Some ""%string))); reflexivity.
  - unfold generate_response, bind, get_sector_risk_profile. simpl.
    destruct (rows_or_empty (run_sector st (Some "Manufacturing"%string))); reflexivity.
Qed.

Lemma C2_prompt_without_store_access_witness :
  (In "search_tin"%string param_intents /\ truthy (pget (Some (Some []))) = None) /\
  ((exists r, generate_response empty_store "search_tin" (Some (Some [])) = ([], Returned r VNone)
              /\ kind_of r = KPrompt)
   /\ fst (generate_response empty_store "search_name" None) = [QName (Some ""%string)]
   /\ fst (generate_response empty_store "sector_analysis" None)
      = [QSector (Some "Manufacturing"%string)]).
Proof.
  split; [split; [simpl; tauto | reflexivity]|].
  apply C2_prompt_without_store_access; [simpl; tauto | reflexivity].
Defined.

Lemma recommended_action_tiers : forall n,
  (10 <= n -> recommended_action n = "CRITICAL - Immediate Audit"%string) /\
  (5 <= n <= 9 -> recommended_action n = "HIGH PRIORITY - Schedule Audit"%string) /\
  (2 <= n <= 4 -> recommended_action n = "MEDIUM - Review Risk Profile"%string) /\
  (n <= 1 -> recommended_action n = "LOW - Routine Monitoring"%string).
Proof.
  intros n. unfold recommended_action.
  destruct (Nat.leb_spec 10 n); destruct (Nat.leb_spec 5 n); destruct (Nat.leb_spec 2 n);
    repeat split; intros; try reflexivity; lia.
Qed.

Lemma recommended_action_monotone : forall n n',
  n <= n' -> action_rank (recommended_action n) <= action_rank (recommended_action n').
Proof.
  intros n n' Hle. unfold recommended_action.
  destruct (Nat.leb_spec 10 n); destruct (Nat.leb_spec 5 n); destruct (Nat.leb_spec 2 n);
  destruct (Nat.leb_spec 10 n'); destruct (Nat.leb_spec 5 n'); destruct (Nat.leb_spec 2 n');
    vm_compute; lia.
Qed.

(** C3. Whenever search-by-identifier returns a found taxpayer record, the
    recommended action is computed from the number of distinct risk
    entries of the record alone ([collect(DISTINCT ...)] of its risk
    flags): at least 10 is critical, 5 to 9 high, 2 to 4 medium, at most 1
    low, and the tier never decreases as the count grows. *)
Theorem C3_recommendation_tier : forall st p q r n e i j a v,
  generate_response st "search_tin" p = (q, Returned (FoundTaxpayer r n e i j a) v) ->
  n = length (tr_risks r) /\ a = recommended_action n /\
  (10 <= n -> a = "CRITICAL - Immediate Audit"%string) /\
  (5 <= n <= 9 -> a = "HIGH PRIORITY - Schedule Audit"%string) /\
  (2 <= n <= 4 -> a = "MEDIUM - Review Risk Profile"%string) /\
  (n <= 1 -> a = "LOW - Routine Monitoring"%string) /\
  (forall n', n <= n' -> action_rank a <= action_rank (recommended_action n')).
Proof.
  intros st p q r n e i j a v H.
  unfold generate_response, bind, ret, search_taxpayer_by_tin in H. simpl in H.
  destruct (truthy (pget p)) as [tin|]; [|discriminate H].
  destruct (head_or_none (run_tin st tin)) as [rec|]; [|discriminate H].
  destruct (sum_exposure (tr_risks rec)); [|discriminate H].
  inversion H; subst.
  pose proof (recommended_action_tiers (length (tr_risks r))) as T.
  repeat split; try reflexivity; try apply T.
  apply recommended_action_monotone.
Qed.

Lemma C3_recommendation_tier_witness :
  generate_response (tin_store sample_record) "search_tin" (Some (Some (s2c "1000012345")))
    = ([QTin "1000012345"%string], Returned sample_found (VTaxpayer sample_record))
  /\ (5 = length (tr_risks sample_record)
      /\ "HIGH PRIORITY - Schedule Audit"%string = recommended_action 5
      /\ (10 <= 5 -> "HIGH PRIORITY - Schedule Audit"%string = "CRITICAL - Immediate Audit"%string)
      /\ (5 <= 5 <= 9 -> "HIGH PRIORITY - Schedule Audit"%string = "HIGH PRIORITY - Schedule Audit"%string)
      /\ (2 <= 5 <= 4 -> "HIGH PRIORITY - Schedule Audit"%string = "MEDIUM - Review Risk Profile"%string)
      /\ (5 <= 1 -> "HIGH PRIORITY - Schedule Audit"%string = "LOW - Routine Monitoring"%string)
      /\ (forall n', 5 <= n' -> action_rank "HIGH PRIORITY - Schedule Audit"
                                <= action_rank (recommended_action n'))).
Proof.
  split; [vm_compute; reflexivity|].
  apply (C3_recommendation_tier (tin_store sample_record) (Some (Some (s2c "1000012345")))
           [QTin "1000012345"%string] sample_record 5 2300000004 0 0
           "HIGH PRIORITY - Schedule Audit" (VTaxpayer sample_record)).
  vm_compute. reflexivity.
Defined.

Ltac destruct_runs st :=
  repeat (match goal with
  | |- context [run_tin st ?t] => destruct (run_tin st t) as [[|? ?]|]
  | |- context [run_name st ?t] => destruct (run_name st t) as [[|? ?]|]
  | |- context [run_related st ?t] => destruct (run_related st t) as [[|? ?]|]
  | |- context [run_pathway st ?t ?r] => destruct (run_pathway st t r) as [[|? ?]|]
  | |- context [run_high st ?r ?e] => destruct (run_high st r e) as [[|? ?]|]
  | |- context [run_sector st ?t] => destruct (run_sector st t) as [[|? ?]|]
  | |- context [sum_exposure ?x] => destruct (sum_exposure x)
  | |- context [tr_risks ?x] => destruct (tr_risks x)
  | |- context [pw_exposureAmount ?x] => destruct (pw_exposureAmount x)
  end; cbn).

Ltac unfold_dispatch :=
  unfold generate_response, bind, ret, search_taxpayer_by_tin, search_taxpayer_by_name,
    find_related_taxpayers, get_risk_pathway, find_high_impact_cases,
    get_sector_risk_profile, head_or_none, rows_or_empty.

(** C4 (counterexample). With the store raising on the identifier query,
    search-by-identifier returns exactly what it returns when the store
    finds zero rows: the "not found" message, not a separate error kind. *)
Lemma C4_counterexample :
  generate_response failing_store "search_tin" (Some (Some (s2c "1000012345")))
  = generate_response empty_store "search_tin" (Some (Some (s2c "1000012345")))
  /\ snd (generate_response failing_store "search_tin" (Some (Some (s2c "1000012345"))))
     = Returned (TinNotFound "1000012345") VNone.
Proof. split; reflexivity. Qed.

(** C4 (amended). Every store error is caught in the query function, which
    returns what zero rows give ([None] or [[]]): whatever the intent and
    parameters, dispatching against a store equals dispatching against the
    same store with each raised query answered by zero rows.  So a store
    error never reaches the caller as an exception, and it yields the
    "not found" / prompt / help message, never a result. *)
Theorem C4_store_errors_as_empty : forall st intent p,
  generate_response st intent p = generate_response (errors_as_empty st) intent p
  /\ exists r, snd (generate_response failing_store intent p) = Returned r VNone
               /\ kind_of r <> KResult.
Proof.
  intros st intent p. split.
  - unfold errors_as_empty. unfold_dispatch. cbn [run_tin run_name run_related run_pathway
      run_high run_sector].
    destruct (String.eqb intent "search_tin"); [|destruct (String.eqb intent "search_name");
      [|destruct (String.eqb intent "related"); [|destruct (String.eqb intent "pathway");
      [|destruct (String.eqb intent "high_impact"); [|destruct (String.eqb intent "sector_analysis")]]]]];
    try reflexivity;
    try (destruct (truthy (pget p)); [|reflexivity]);
    destruct_runs st; reflexivity.
  - unfold_dispatch. cbn.
    destruct (String.eqb intent "search_tin"); [|destruct (String.eqb intent "search_name");
      [|destruct (String.eqb intent "related"); [|destruct (String.eqb intent "pathway");
      [|destruct (String.eqb intent "high_impact"); [|destruct (String.eqb intent "sector_analysis")]]]]];
    try (destruct (truthy (pget p)));
    eexists; split; try reflexivity; discriminate.
Qed.

End Dispatch.

(** ** The audit-task operations *)
Section TaskOps.
Import Tasks.

Lemma set_task_forall : forall (P : task -> Prop) d id f,
  Forall P (tasks d) -> (forall t, P t -> P (f t)) -> Forall P (tasks (set_task d id f)).
Proof.
  intros P d id f H Hf. unfold set_task. simpl.
  induction H as [|t ts Ht Hts IH]; simpl; constructor; auto.
  destruct (String.eqb (TaskID t) id); auto.
Qed.

Lemma set_task_in : forall d id f t',
  In t' (tasks (set_task d id f)) ->
  exists t, In t (tasks d) /\ t' = (if String.eqb (TaskID t) id then f t else t).
Proof.
  intros d id f t' H. unfold set_task in H. simpl in H.
  apply in_map_iff in H. destruct H as (t & <- & Ht). eauto.
Qed.

Lemma add_task_note_progress : forall d id note stamp now,
  progress_ok d -> progress_ok (fst (add_task_note d id note stamp now)).
Proof.
  intros. unfold add_task_note, progress_ok. simpl. apply set_task_forall; auto.
Qed.

Lemma clamp_range : forall p, (0 <= Z.max 0 (Z.min 100 p) <= 100)%Z.
Proof. intros p. lia. Qed.

(** [complete_task] sets the status, the progress and the completion date
    of every task it matches. *)
Lemma complete_task_sets_completion : forall d id notes stamp now t',
  In t' (tasks (fst (complete_task d id notes stamp now))) -> TaskID t' = id ->
  Status t' = "Completed"%string /\ ProgressPercent t' = 100%Z /\ CompletedDate t' = Some now.
Proof.
  intros d id notes stamp now t' H Hid. simpl in H.
  apply set_task_in in H. destruct H as (t & _ & ->).
  destruct (String.eqb (TaskID t) id) eqn:E; simpl in *.
  - auto.
  - subst id. rewrite String.eqb_refl in E. discriminate.
Qed.


(** C9. Creation writes progress 0, the progress update writes
    [max(0, min(100, p))], completion writes 100 and no other operation
    writes it: every task operation keeps every progress in [0, 100]. *)
Theorem C9_progress_in_range : forall d op stamp now,
  progress_ok d ->
  progress_ok (fst (exec d op stamp now))
  /\ (forall data uuid,
        tasks (fst (create_audit_task d data uuid now)) = tasks d
        \/ exists t, tasks (fst (create_audit_task d data uuid now)) = tasks d ++ [t]
                     /\ ProgressPercent t = 0%Z)
  /\ (forall id p t, In t (tasks (fst (update_task_progress d id p now))) -> TaskID t = id ->
        ProgressPercent t = Z.max 0 (Z.min 100 p))
  /\ (forall id notes t, In t (tasks (fst (complete_task d id notes stamp now))) ->
        TaskID t = id -> ProgressPercent t = 100%Z).
Proof.
  intros d op stamp now Hd. split; [|split; [|split]].
  - destruct op as [data uuid|id s n|id p|id a|id n|id r|id n]; cbn [exec].
    + unfold create_audit_task.
      destruct (mem (td_taxpayer_tin data) (taxpayer_tins d) && mem (td_auditor_id data) (auditor_ids d));
        cbn [fst tasks]; [|exact Hd].
      apply Forall_app. split; [exact Hd|]. constructor; [simpl; lia | constructor].
    + unfold update_task_status. cbn [fst].
      assert (H1 : progress_ok (set_task d id (fun t => with_status t s (Some now) (Some now)))).
      { apply set_task_forall; [exact Hd|]. intros t Ht. exact Ht. }
      destruct (String.eqb n ""); [exact H1|].
      apply (add_task_note_progress _ _ _ _ _ H1).
    + apply set_task_forall; [exact Hd|]. intros t _. simpl. apply clamp_range.
    + unfold reassign_task. destruct (mem a (auditor_ids d)); cbn [fst]; [|exact Hd].
      apply set_task_forall; auto.
    + apply add_task_note_progress. exact Hd.
    + unfold link_risk_to_task. destruct (mem r (risk_ids d)); cbn [fst]; [|exact Hd].
      apply set_task_forall; auto.
    + apply set_task_forall; [exact Hd|]. intros t _. simpl. lia.
  - intros data uuid. unfold create_audit_task.
    destruct (mem (td_taxpayer_tin data) (taxpayer_tins d) && mem (td_auditor_id data) (auditor_ids d)).
    + right. eexists. split; reflexivity.
    + left. reflexivity.
  - intros id p t H Hid. simpl in H. apply set_task_in in H. destruct H as (t0 & _ & ->).
    destruct (String.eqb (TaskID t0) id) eqn:E; simpl in *; [reflexivity|].
    subst id. rewrite String.eqb_refl in E. discriminate.
  - intros id notes t H Hid.
    apply (complete_task_sets_completion d id notes stamp now t H Hid).
Qed.

Lemma C9_progress_in_range_witness :
  progress_ok (mkDb [demo_task] ["AUD1"%string] ["1000012345"%string] ["R01"%string]) /\
  progress_ok (fst (exec (mkDb [demo_task] ["AUD1"%string] ["1000012345"%string] ["R01"%string])
                         (OpProgress "T1"%string 250) "2025-01-01 09:00"%string 200)).
Proof.
  assert (H : progress_ok (mkDb [demo_task] ["AUD1"%string] ["1000012345"%string] ["R01"%string])).
  { constructor; [simpl; lia | constructor]. }
  split; [exact H|].
  apply (C9_progress_in_range _ (OpProgress "T1"%string 250) "2025-01-01 09:00"%string 200 H).
Defined.

End TaskOps.

(** ** Grouping, [COUNT(DISTINCT _)], [ORDER BY _ DESC] and [LIMIT] *)
Section Lists.

Lemma in_firstn : forall {A} n (l : list A) x, In x (firstn n l) -> In x l.
Proof.
  intros A n l x H. rewrite <- (firstn_skipn n l). apply in_or_app. left. exact H.
Qed.

Lemma sorted_firstn : forall {A} (R : A -> A -> Prop) n l,
  StronglySorted R l -> StronglySorted R (firstn n l).
Proof.
  intros A R n l. revert n. induction l as [|a l IH]; intros n H.
  - destruct n; constructor.
  - destruct n; simpl; [constructor|].
    inversion H as [|? ? Hs Hf]; subst. constructor; [apply IH; exact Hs|].
    apply Forall_forall. intros y Hy. apply in_firstn in Hy.
    rewrite Forall_forall in Hf. apply Hf. exact Hy.
Qed.

Variable A : Type.
Variable key : A -> Z.

Lemma insert_desc_in : forall a l x, In x (insert_desc key a l) <-> a = x \/ In x l.
Proof.
  intros a l x. induction l as [|y l IH]; simpl.
  - tauto.
  - destruct (key y <? key a)%Z; simpl; [tauto|]. rewrite IH. tauto.
Qed.

Lemma sort_desc_in : forall l x, In x (sort_desc key l) <-> In x l.
Proof.
  induction l as [|a l IH]; intros x; simpl; [tauto|].
  rewrite insert_desc_in, IH. tauto.
Qed.

Lemma insert_desc_perm : forall a l, Permutation (insert_desc key a l) (a :: l).
Proof.
  intros a l. induction l as [|y l IH]; simpl; [reflexivity|].
  destruct (key y <? key a)%Z; [reflexivity|].
  eapply perm_trans; [apply perm_skip, IH | apply perm_swap].
Qed.

Lemma sort_desc_perm : forall l, Permutation (sort_desc key l) l.
Proof.
  induction l as [|a l IH]; simpl; [reflexivity|].
  eapply perm_trans; [apply insert_desc_perm | apply perm_skip, IH].
Qed.

Lemma insert_desc_sorted : forall a l,
  StronglySorted (fun u v => (key v <= key u)%Z) l ->
  StronglySorted (fun u v => (key v <= key u)%Z) (insert_desc key a l).
Proof.
  intros a l. induction l as [|y l IH]; intros H; simpl.
  - constructor; constructor.
  - inversion H as [|? ? Hs Hf]; subst.
    destruct (Z.ltb_spec (key y) (key a)).
    + constructor; [exact H|]. constructor; [lia|].
      rewrite Forall_forall in *. intros z Hz. specialize (Hf z Hz). lia.
    + constructor; [apply IH; exact Hs|].
      apply Forall_forall. intros z Hz. apply insert_desc_in in Hz.
      destruct Hz as [<- | Hz]; [lia|]. rewrite Forall_forall in Hf. apply Hf. exact Hz.
Qed.

Lemma sort_desc_sorted : forall l,
  StronglySorted (fun u v => (key v <= key u)%Z) (sort_desc key l).
Proof.
  induction l as [|a l IH]; simpl; [constructor|]. apply insert_desc_sorted. exact IH.
Qed.

End Lists.

Arguments insert_desc_in {A}.
Arguments sort_desc_in {A}.
Arguments sort_desc_sorted {A}.

Section Grouping.
Context {K V : Type} (eqb : K -> K -> bool).
Hypothesis eqb_spec : forall a b, eqb a b = true <-> a = b.

Lemma add_to_groups_keys : forall (k : K) (a : V) (gs : list (K * list V)),
  map fst (add_to_groups eqb k a gs) = if existsb (eqb k) (map fst gs) then map fst gs
                                       else map fst gs ++ [k].
Proof.
  intros k a gs. induction gs as [|[k' xs] gs IH]; simpl; [reflexivity|].
  destruct (eqb k k'); simpl; [reflexivity|]. rewrite IH.
  destruct (existsb (eqb k) (map fst gs)); reflexivity.
Qed.

Lemma existsb_eqb_in : forall (k : K) l, existsb (eqb k) l = true <-> In k l.
Proof.
  intros k l. rewrite existsb_exists. split.
  - intros (y & Hy & He). apply eqb_spec in He. subst. exact Hy.
  - intros H. exists k. split; [exact H|]. apply eqb_spec. reflexivity.
Qed.

Lemma add_to_groups_in : forall (k : K) (a : V) (gs : list (K * list V)) k' xs,
  NoDup (map fst gs) ->
  In (k', xs) (add_to_groups eqb k a gs) ->
  (k' = k /\ exists ys, xs = ys ++ [a] /\ ((In (k, ys) gs) \/ (ys = [] /\ ~ In k (map fst gs))))
  \/ (k' <> k /\ In (k', xs) gs).
Proof.
  intros k a gs. induction gs as [|[k0 ys] gs IH]; intros k' xs Hnd H; simpl in H.
  - destruct H as [H|[]]. inversion H; subst. left. split; [reflexivity|].
    exists []. split; [reflexivity|]. right. auto.
  - simpl in Hnd. inversion Hnd as [|? ? Hn0 Hnd']; subst.
    destruct (eqb k k0) eqn:E.
    + apply eqb_spec in E. subst k0. destruct H as [H|H].
      * inversion H; subst. left. split; [reflexivity|]. exists ys. split; [reflexivity|].
        left. left. reflexivity.
      * right. split; [|right; exact H].
        intros ->. apply Hn0. apply in_map_iff. exists (k, xs). auto.
    + destruct H as [H|H].
      * inversion H; subst. right. split; [|left; reflexivity].
        intros ->. rewrite (proj2 (eqb_spec k k)) in E; [discriminate|reflexivity].
      * destruct (IH k' xs Hnd' H) as [(-> & zs & -> & Hz) | (Hne & Hin)].
        -- left. split; [reflexivity|]. exists zs. split; [reflexivity|].
           destruct Hz as [Hz|(-> & Hnk)]; [left; right; exact Hz|].
           right. split; [reflexivity|]. simpl. intros [Hk|Hk]; [|tauto].
           subst k0. rewrite (proj2 (eqb_spec k k)) in E; [discriminate|reflexivity].
        -- right. split; [exact Hne|]. right. exact Hin.
Qed.

Lemma groups_ok_step : forall (key : V -> K) (seen : list V) (gs : list (K * list V)) (a : V),
  groups_ok key seen gs ->
  groups_ok key (seen ++ [a]) (add_to_groups eqb (key a) a gs).
Proof.
  intros key seen gs a (Hnd & Hg & Hcov). split; [|split].
  - rewrite add_to_groups_keys.
    destruct (existsb (eqb (key a)) (map fst gs)) eqn:E; [exact Hnd|].
    apply NoDup_app; [exact Hnd | repeat constructor; simpl; tauto |].
    intros x Hx [Hy|[]]. subst x. rewrite <- existsb_eqb_in in Hx. congruence.
  - intros k xs H. destruct (add_to_groups_in (key a) a gs k xs Hnd H)
      as [(-> & ys & -> & [Hys | (-> & Hnk)]) | (Hne & Hin)].
    + split; [destruct ys; discriminate|].
      destruct (Hg _ _ Hys) as [_ Hiff]. intros x. rewrite in_app_iff, in_app_iff, Hiff.
      simpl. split.
      * intros [[H1 H2]|[<-|[]]]; auto.
      * intros [[H1|[<-|[]]] H2]; auto.
    + split; [discriminate|]. intros x. simpl. rewrite in_app_iff. simpl. split.
      * intros [<-|[]]. auto.
      * intros [[H1|[<-|[]]] H2]; auto. exfalso. apply Hnk. rewrite <- H2. apply Hcov. exact H1.
    + destruct (Hg _ _ Hin) as [Hne' Hiff]. split; [exact Hne'|].
      intros x. rewrite in_app_iff, Hiff. simpl. split.
      * intros [H1 H2]. auto.
      * intros [[H1|[<-|[]]] H2]; auto. congruence.
  - intros x Hx. rewrite add_to_groups_keys.
    apply in_app_or in Hx. destruct Hx as [Hx|[<-|[]]].
    + destruct (existsb (eqb (key a)) (map fst gs)); [|apply in_or_app; left]; apply Hcov; exact Hx.
    + destruct (existsb (eqb (key a)) (map fst gs)) eqn:E.
      * apply existsb_eqb_in. exact E.
      * apply in_or_app. right. left. reflexivity.
Qed.

Lemma group_by_ok : forall (key : V -> K) (rows : list V), groups_ok key rows (group_by eqb key rows).
Proof.
  intros key rows. unfold group_by.
  assert (Hgen : forall (seen : list V) (gs : list (K * list V)), groups_ok key seen gs ->
            groups_ok key (seen ++ rows) (fold_left (fun gs r => add_to_groups eqb (key r) r gs) rows gs)).
  { induction rows as [|a rows IH]; intros seen gs H; simpl.
    - rewrite app_nil_r. exact H.
    - replace (seen ++ a :: rows) with ((seen ++ [a]) ++ rows)
        by (rewrite <- app_assoc; reflexivity).
      apply IH. apply groups_ok_step. exact H. }
  apply (Hgen [] []). split; [constructor|]. split; [intros k xs []|intros x []].
Qed.

Lemma dedup_in : forall (l : list K) x, In x (dedup eqb l) <-> In x l.
Proof.
  induction l as [|a l IH]; intros x; simpl; [tauto|].
  destruct (existsb (eqb a) l) eqn:E.
  - rewrite IH. split; [tauto|]. intros [<-|H]; [|exact H].
    apply existsb_eqb_in. exact E.
  - simpl. rewrite IH. tauto.
Qed.

Lemma dedup_nodup : forall (l : list K), NoDup (dedup eqb l).
Proof.
  induction l as [|a l IH]; simpl; [constructor|].
  destruct (existsb (eqb a) l) eqn:E; [exact IH|].
  constructor; [|exact IH]. rewrite dedup_in. rewrite <- existsb_eqb_in. congruence.
Qed.

Lemma dedup_length_same : forall (l1 l2 : list K),
  (forall x, In x l1 <-> In x l2) -> length (dedup eqb l1) = length (dedup eqb l2).
Proof.
  intros l1 l2 H. apply Nat.le_antisymm; apply NoDup_incl_length; try apply dedup_nodup;
    intros x Hx; rewrite dedup_in in *; apply H; exact Hx.
Qed.

End Grouping.

Lemma taxpayer_eqb_spec : forall a b, taxpayer_eqb a b = true <-> a = b.
Proof.
  intros [a1 a2 a3 a4 a5] [b1 b2 b3 b4 b5]. unfold taxpayer_eqb. simpl.
  rewrite !andb_true_iff, !String.eqb_eq. split.
  - intros [[[[-> ->] ->] ->] ->]. reflexivity.
  - intros H. inversion H. tauto.
Qed.

Lemma risk_flag_eqb_spec : forall a b, risk_flag_eqb a b = true <-> a = b.
Proof.
  intros [a1 a2 a3] [b1 b2 b3]. unfold risk_flag_eqb. simpl.
  rewrite !andb_true_iff, !String.eqb_eq. split.
  - intros [[-> ->] ->]. reflexivity.
  - intros H. inversion H. tauto.
Qed.

(** ** The search queries *)
Section Queries.

Lemma sumZ_ge : forall (m : Z) xs, (0 <= m)%Z -> xs <> [] -> Forall (fun x => m <= x)%Z xs ->
  (m <= sumZ xs)%Z.
Proof.
  intros m xs Hm. induction xs as [|x xs IH]; intros Hne Hf; [congruence|].
  inversion Hf as [|? ? Hx Hxs]; subst. simpl.
  destruct xs as [|y ys].
  - simpl. lia.
  - assert (m <= sumZ (y :: ys))%Z by (apply IH; [discriminate | exact Hxs]). lia.
Qed.

Lemma high_query_props : forall g rid min, (0 <= min)%Z ->
  length (high_query g rid min) <= 20
  /\ Forall (fun c => min <= case_exposure c)%Z (high_query g rid min)
  /\ StronglySorted (fun u v => case_exposure v <= case_exposure u)%Z (high_query g rid min).
Proof.
  intros g rid min Hmin. split; [|split].
  - destruct rid; apply firstn_le_length.
  - apply Forall_forall. intros c Hc. destruct rid as [rid|]; unfold high_query in Hc;
      apply in_firstn, sort_desc_in, in_map_iff in Hc.
    + destruct Hc as (e & <- & He). apply filter_In in He. destruct He as [_ He].
      apply andb_true_iff in He. destruct He as [_ He]. simpl. apply Z.leb_le. exact He.
    + destruct Hc as ([t es] & <- & Hg). simpl.
      destruct (group_by_ok taxpayer_eqb taxpayer_eqb_spec fb_taxpayer
                  (filter (fun e => (min <=? fb_ExposureAmount e)%Z) (g_flagged g)))
        as (_ & Hgs & _).
      destruct (Hgs t es Hg) as [Hne Hiff].
      apply sumZ_ge; [exact Hmin | destruct es; [congruence | discriminate] |].
      apply Forall_forall. intros x Hx. apply in_map_iff in Hx. destruct Hx as (e & <- & He).
      apply Hiff in He. destruct He as [He _]. apply filter_In in He. destruct He as [_ He].
      apply Z.leb_le. exact He.
  - destruct rid; apply sorted_firstn, sort_desc_sorted.
Qed.

Lemma related_pairs_in : forall g tin e1 e2,
  In (e1, e2) (related_pairs g tin) <->
  In e1 (g_flagged g) /\ TIN (fb_taxpayer e1) = tin /\ In e2 (g_flagged g)
  /\ fb_risk e2 = fb_risk e1 /\ TIN (fb_taxpayer e2) <> tin.
Proof.
  intros g tin e1 e2. unfold related_pairs. rewrite in_flat_map. split.
  - intros (x & Hx & Hin). destruct (String.eqb_spec (TIN (fb_taxpayer x)) tin); [|destruct Hin].
    apply in_flat_map in Hin. destruct Hin as (y & Hy & Hin).
    destruct (risk_flag_eqb (fb_risk y) (fb_risk x) && negb (String.eqb (TIN (fb_taxpayer y)) tin))
      eqn:E; [|destruct Hin].
    destruct Hin as [Hin|[]]. inversion Hin; subst.
    apply andb_true_iff in E. destruct E as [E1 E2]. apply risk_flag_eqb_spec in E1.
    apply negb_true_iff, String.eqb_neq in E2. tauto.
  - intros (H1 & H2 & H3 & H4 & H5). exists e1. split; [exact H1|].
    rewrite H2, String.eqb_refl. apply in_flat_map. exists e2. split; [exact H3|].
    rewrite H4, (proj2 (risk_flag_eqb_spec _ _) eq_refl).
    rewrite (proj2 (String.eqb_neq _ _) H5). simpl. left. reflexivity.
Qed.

Lemma similarity_rounding : forall k,
  similarity_tenths k = round_half_up_div (1000 * Z.of_nat k) 18
  /\ (36 * similarity_tenths k - 18 <= 2000 * Z.of_nat k < 36 * similarity_tenths k + 18)%Z.
Proof.
  intros k. unfold similarity_tenths, round_half_up_div.
  replace (10 * (100 * Z.of_nat k))%Z with (1000 * Z.of_nat k)%Z by ring.
  split; [reflexivity|].
  pose proof (Z.div_mod (2 * (1000 * Z.of_nat k) + 18) (2 * 18)) as Hd.
  pose proof (Z.mod_pos_bound (2 * (1000 * Z.of_nat k) + 18) (2 * 18)) as Hb.
  lia.
Qed.

Lemma related_query_rows : forall g tin r,
  In r (related_query g tin) ->
  TIN (rr_taxpayer r) <> tin
  /\ rr_sharedRisks r = length (dedup risk_flag_eqb (shared_flags g tin (rr_taxpayer r))).
Proof.
  intros g tin r Hr. unfold related_query in Hr.
  apply in_firstn, sort_desc_in, in_map_iff in Hr.
  destruct Hr as ([t2 ps] & <- & Hg). simpl.
  destruct (group_by_ok taxpayer_eqb taxpayer_eqb_spec (fun p => fb_taxpayer (snd p))
              (related_pairs g tin)) as (_ & Hgs & _).
  destruct (Hgs t2 ps Hg) as [Hne Hiff].
  assert (Htin : TIN t2 <> tin).
  { destruct ps as [|[e1 e2] ps]; [congruence|].
    destruct (proj1 (Hiff (e1, e2)) (or_introl eq_refl)) as [Hp Ht].
    apply related_pairs_in in Hp. simpl in Ht. subst t2. tauto. }
  split; [exact Htin|].
  apply dedup_length_same; [exact risk_flag_eqb_spec|].
  intros rf. unfold shared_flags. rewrite !in_map_iff. split.
  - intros ([e1 e2] & <- & Hp). apply Hiff in Hp. destruct Hp as [Hp Ht]. simpl in Ht.
    apply related_pairs_in in Hp. destruct Hp as (H1 & H2 & H3 & H4 & H5).
    exists e1. split; [reflexivity|]. apply filter_In. split; [exact H1|].
    rewrite H2, String.eqb_refl. simpl. apply existsb_exists. exists e2. split; [exact H3|].
    rewrite Ht, H4, (proj2 (taxpayer_eqb_spec _ _) eq_refl), (proj2 (risk_flag_eqb_spec _ _) eq_refl).
    reflexivity.
  - intros (e1 & <- & He). apply filter_In in He. destruct He as [H1 He].
    apply andb_true_iff in He. destruct He as [H2 He]. apply String.eqb_eq in H2.
    apply existsb_exists in He. destruct He as (e2 & H3 & He).
    apply andb_true_iff in He. destruct He as [Ht H4].
    apply taxpayer_eqb_spec in Ht. apply risk_flag_eqb_spec in H4.
    exists (e1, e2). split; [reflexivity|]. apply Hiff. split; [|exact Ht].
    apply related_pairs_in. subst t2. tauto.
Qed.

(** C6. Every row of find-related is another taxpayer (a different TIN)
    whose shared-flag count [k] is the number of distinct risk flags it
    shares with the given taxpayer; its similarity score, in tenths, is
    [100 * k / 18] rounded to one decimal (halves up: within half a tenth
    of the exact value), so 3 shared flags give 16.7; the rows are ranked
    by [k], descending. *)
Theorem C6_similarity_score : forall g st tin,
  runs_cypher g st ->
  Forall (fun r => TIN (rr_taxpayer r) <> tin
    /\ rr_sharedRisks r = length (dedup risk_flag_eqb (shared_flags g tin (rr_taxpayer r)))
    /\ rr_similarityScore_tenths r = round_half_up_div (1000 * Z.of_nat (rr_sharedRisks r)) 18
    /\ (36 * rr_similarityScore_tenths r - 18 <= 2000 * Z.of_nat (rr_sharedRisks r)
        < 36 * rr_similarityScore_tenths r + 18)%Z)
    (snd (find_related_taxpayers st tin))
  /\ StronglySorted (fun u v => Z.of_nat (rr_sharedRisks v) <= Z.of_nat (rr_sharedRisks u))%Z
       (snd (find_related_taxpayers st tin))
  /\ similarity_tenths 3 = 167%Z.
Proof.
  intros g st tin (_ & Hrel & _). unfold find_related_taxpayers, rows_or_empty. simpl.
  destruct (Hrel tin) as [-> | ->]; [split; [constructor | split; [constructor | reflexivity]]|].
  split; [|split; [|reflexivity]].
  - apply Forall_forall. intros r Hr.
    destruct (related_query_rows g tin r Hr) as [H1 H2].
    assert (Hs : rr_similarityScore_tenths r = similarity_tenths (rr_sharedRisks r)).
    { unfold related_query in Hr. apply in_firstn, sort_desc_in, in_map_iff in Hr.
      destruct Hr as ([t2 ps] & <- & _). reflexivity. }
    rewrite Hs. destruct (similarity_rounding (rr_sharedRisks r)) as [E B]. auto.
  - unfold related_query. apply sorted_firstn, sort_desc_sorted.
Qed.

End Queries.

Section Caps.

(** C7. Against a store that runs the Cypher of the queries (or raises),
    search-by-name and find-related return at most 10 rows, and the
    high-impact dispatch shows at most 20 cases, each with an exposure of
    at least one billion, ranked by exposure, descending. *)
Theorem C7_result_caps : forall g st,
  runs_cypher g st ->
  (forall name, length (snd (search_taxpayer_by_name st name)) <= 10)
  /\ (forall tin, length (snd (find_related_taxpayers st tin)) <= 10)
  /\ (forall p q r rows, generate_response st "high_impact" p = (q, Returned r (VCases rows)) ->
        length rows <= 20
        /\ Forall (fun c => one_billion <= case_exposure c)%Z rows
        /\ StronglySorted (fun u v => case_exposure v <= case_exposure u)%Z rows).
Proof.
  intros g st (Hname & Hrel & Hhigh). split; [|split].
  - intros name. unfold search_taxpayer_by_name, rows_or_empty. simpl.
    destruct (Hname name) as [-> | ->]; [simpl; lia|].
    unfold name_query. destruct name; [apply firstn_le_length | simpl; lia].
  - intros tin. unfold find_related_taxpayers, rows_or_empty. simpl.
    destruct (Hrel tin) as [-> | ->]; [simpl; lia|]. apply firstn_le_length.
  - intros p q r rows H.
    unfold generate_response, bind, ret, find_high_impact_cases in H. cbn -[rows_or_empty] in H.
    destruct (rows_or_empty (run_high st None one_billion)) as [|c cs] eqn:E; [discriminate H|].
    inversion H; subst rows. rewrite <- E. unfold rows_or_empty.
    destruct (Hhigh None one_billion) as [-> | ->]; [repeat constructor|].
    apply high_query_props. unfold one_billion. lia.
Qed.

Lemma cypher_store_runs : forall g, runs_cypher g (cypher_store g).
Proof. intros g. repeat split; intros; right; reflexivity. Qed.

Example big_graph_caps :
  length (snd (search_taxpayer_by_name (cypher_store big_graph) (Some "acme"%string))) = 10
  /\ length (snd (find_related_taxpayers (cypher_store big_graph) "01"%string)) = 10
  /\ length (high_query big_graph None one_billion) = 12
  /\ length (high_query big_graph (Some "R01"%string) one_billion) = 12.
Proof. vm_compute. repeat split. Qed.

Lemma C7_result_caps_witness :
  runs_cypher big_graph (cypher_store big_graph) /\
  ((forall name, length (snd (search_taxpayer_by_name (cypher_store big_graph) name)) <= 10)
  /\ (forall tin, length (snd (find_related_taxpayers (cypher_store big_graph) tin)) <= 10)
  /\ (forall p q r rows,
        generate_response (cypher_store big_graph) "high_impact" p = (q, Returned r (VCases rows)) ->
        length rows <= 20
        /\ Forall (fun c => one_billion <= case_exposure c)%Z rows
        /\ StronglySorted (fun u v => case_exposure v <= case_exposure u)%Z rows)).
Proof.
  split; [apply cypher_store_runs|].
  apply (C7_result_caps big_graph (cypher_store big_graph) (cypher_store_runs big_graph)).
Defined.

Lemma C6_similarity_score_witness :
  runs_cypher big_graph (cypher_store big_graph) /\
  (Forall (fun r => TIN (rr_taxpayer r) <> "01"%string
    /\ rr_sharedRisks r = length (dedup risk_flag_eqb (shared_flags big_graph "01" (rr_taxpayer r)))
    /\ rr_similarityScore_tenths r = round_half_up_div (1000 * Z.of_nat (rr_sharedRisks r)) 18
    /\ (36 * rr_similarityScore_tenths r - 18 <= 2000 * Z.of_nat (rr_sharedRisks r)
        < 36 * rr_similarityScore_tenths r + 18)%Z)
    (snd (find_related_taxpayers (cypher_store big_graph) "01"))
  /\ StronglySorted (fun u v => Z.of_nat (rr_sharedRisks v) <= Z.of_nat (rr_sharedRisks u))%Z
       (snd (find_related_taxpayers (cypher_store big_graph) "01"))
  /\ similarity_tenths 3 = 167%Z).
Proof.
  split; [apply cypher_store_runs|].
  apply (C6_similarity_score big_graph (cypher_store big_graph) "01"%string
           (cypher_store_runs big_graph)).
Defined.

End Caps.

(** ** Identifier search captures one word *)
Section WordCapture.

Lemma takew_dropw : forall s, takew s ++ dropw s = s.
Proof.
  induction s as [|c s IH]; simpl; [reflexivity|].
  destruct (is_word c); simpl; [rewrite IH|]; reflexivity.
Qed.

Lemma dropw_length : forall s, length (dropw s) <= length s.
Proof.
  induction s as [|c s IH]; simpl; [lia|]. destruct (is_word c); simpl; lia.
Qed.

Lemma firstn_takew : forall s, firstn (length s - length (dropw s)) s = takew s.
Proof.
  induction s as [|c s IH]; [reflexivity|]. cbn [length dropw takew].
  destruct (is_word c).
  - pose proof (dropw_length s).
    replace (S (length s) - length (dropw s)) with (S (length s - length (dropw s))) by lia.
    cbn [firstn]. rewrite IH. reflexivity.
  - rewrite Nat.sub_diag. reflexivity.
Qed.

Lemma lit_app : forall l1 l2 k, lit (l1 ++ l2) k = lit l1 (lit l2 k).
Proof. induction l1 as [|c l1 IH]; intros l2 k; simpl; [|rewrite IH]; reflexivity. Qed.

Lemma m_lit : forall l k g s,
  m (lit l k) g s = if prefixb l s then m k g (skipn (length l) s) else [].
Proof.
  induction l as [|c l IH]; intros k g s; simpl; [reflexivity|].
  destruct s as [|d s]; simpl; [reflexivity|].
  destruct (Ascii.eqb c d); simpl; [|reflexivity].
  rewrite app_nil_r. apply IH.
Qed.

Lemma star_word_head : forall n g s, length s <= n ->
  exists rest, star_iter (m RWord) n g s = (g, dropw s) :: rest.
Proof.
  induction n as [|n IH]; intros g s Hn.
  - destruct s; [|simpl in Hn; lia]. exists []. reflexivity.
  - destruct s as [|d s]; [exists []; reflexivity|].
    cbn [star_iter]. destruct (is_word d) eqn:Hw.
    + assert (Hm : m RWord g (d :: s) = [(g, s)]) by (simpl; rewrite Hw; reflexivity).
      rewrite Hm. cbn [flat_map fst snd].
      replace (length s <? length (d :: s))%nat with true by (symmetry; apply Nat.ltb_lt; simpl; lia).
      simpl in Hn. destruct (IH g s ltac:(lia)) as [rest Hr]. rewrite Hr.
      eexists. simpl. rewrite Hw. reflexivity.
    + assert (Hm : m RWord g (d :: s) = []) by (simpl; rewrite Hw; reflexivity).
      rewrite Hm. exists []. simpl. rewrite Hw. reflexivity.
Qed.

Lemma group_word_head : forall g s, starts_word s = true ->
  exists rest, m (RGroup (RPlus RWord)) g s = (Some (takew s), dropw s) :: rest.
Proof.
  intros g [|d s] Hs; [discriminate|]. simpl in Hs.
  change (m (RGroup (RPlus RWord)) g (d :: s)) with
    (map (fun p => (Some (firstn (length (d :: s) - length (snd p)) (d :: s)), snd p))
       (flat_map (fun p => m (RStar RWord) (fst p) (snd p)) (m RWord g (d :: s)))).
  assert (Hm : m RWord g (d :: s) = [(g, s)]) by (simpl; rewrite Hs; reflexivity).
  rewrite Hm. cbn [flat_map fst snd]. rewrite app_nil_r.
  change (m (RStar RWord) g s) with (star_iter (m RWord) (length s) g s).
  destruct (star_word_head (length s) g s (le_n _)) as [rest Hr].
  rewrite Hr. cbn [map fst snd].
  assert (Hd : dropw (d :: s) = dropw s) by (simpl; rewrite Hs; reflexivity).
  rewrite <- Hd, firstn_takew. eexists. reflexivity.
Qed.

Lemma group_word_none : forall g s, starts_word s = false -> m (RGroup (RPlus RWord)) g s = [].
Proof.
  intros g [|d s] Hs; [reflexivity|]. simpl in Hs. simpl. rewrite Hs. reflexivity.
Qed.

Lemma search_kw_word : forall kw t,
  search (kw_word kw) t =
  match word_after (s2c kw) t with Some w => Some (Some w) | None => None end.
Proof.
  intros kw t. unfold kw_word, L. rewrite <- lit_app.
  induction t as [|c t IH].
  - cbn [search word_after]. rewrite m_lit. change (s2c " ") with [" "%char].
    assert (Hp : prefixb (s2c kw ++ [" "%char]) [] = false)
      by (destruct (s2c kw); reflexivity).
    rewrite Hp. reflexivity.
  - cbn [search]. rewrite m_lit. cbn [word_after].
    replace (length (s2c kw ++ s2c " ")) with (length (s2c kw) + 1)
      by (rewrite length_app; reflexivity).
    change (s2c " ") with [" "%char].
    destruct (prefixb (s2c kw ++ [" "%char]) (c :: t)); cbn [andb].
    + destruct (starts_word (skipn (length (s2c kw) + 1) (c :: t))) eqn:Hs.
      * destruct (group_word_head None _ Hs) as [rest ->]. reflexivity.
      * rewrite (group_word_none None _ Hs). exact IH.
    + exact IH.
Qed.

End WordCapture.

Section IdentifierRoute.

(** C10 (counterexample): the word is captured only after exactly one
    literal space; on these two inputs, where the keyword is followed by a
    tab or by two spaces, the identifier-search definition is still chosen,
    through its keyword fallback, and no word is extracted. *)
Lemma C10_counterexample :
  detect_intent tab_find_input = ("search_tin"%string, None) /\
  detect_intent "find  uganda breweries" = ("search_tin"%string, None).
Proof. split; vm_compute; reflexivity. Qed.

(** C10 (amended): when the normalized text contains [search] or [find],
    the identifier-search definition is chosen; its parameter is the
    maximal word after the leftmost [search] followed by one space and a
    word character, or, when there is none, after the leftmost such [find]. *)
Theorem C10_find_search_route : forall s,
  contains (s2c "search") (normalize s) || contains (s2c "find") (normalize s) = true ->
  fst (detect_intent s) = "search_tin"%string /\
  (forall w,
     word_after (s2c "search") (normalize s) = Some w \/
     (word_after (s2c "search") (normalize s) = None /\
      word_after (s2c "find") (normalize s) = Some w) ->
     snd (detect_intent s) = Some (Some w)).
Proof.
  intros s Hc. unfold detect_intent. set (t := normalize s) in *.
  assert (Hk : existsb (fun k => contains (s2c k) t) ["tin"; "search"; "find"; "taxpayer"]%string = true).
  { cbn [existsb]. apply orb_true_iff in Hc as [H | H]; rewrite H;
      rewrite ?orb_true_r; reflexivity. }
  assert (E : detect_loop intents t =
    match first_match [kw_word "search"; kw_word "find"; kw_word "tin"; kw_word "taxpayer"]%string t with
    | Some v => ("search_tin"%string, Some v)
    | None => ("search_tin"%string, None)
    end).
  { unfold intents. cbn [detect_loop ic_patterns ic_intent].
    destruct (first_match _ t); [reflexivity|].
    unfold keyword_hit. cbn [ic_keywords]. rewrite Hk. reflexivity. }
  rewrite E. split.
  - destruct (first_match _ t); reflexivity.
  - intros w Hw. cbn [first_match]. rewrite !search_kw_word.
    replace (has_group (kw_word "search")) with true by reflexivity.
    replace (has_group (kw_word "find")) with true by reflexivity.
    destruct Hw as [H | [H1 H2]].
    + rewrite H. reflexivity.
    + rewrite H1, H2. reflexivity.
Qed.

Lemma C10_find_search_route_witness :
  fst (detect_intent "Find Uganda Breweries") = "search_tin"%string /\
  snd (detect_intent "Find Uganda Breweries") = Some (Some (s2c "uganda")).
Proof.
  destruct (C10_find_search_route "Find Uganda Breweries" ltac:(vm_compute; reflexivity))
    as [H1 H2].
  split; [exact H1|]. apply H2. right. split; vm_compute; reflexivity.
Defined.

End IdentifierRoute.

(** ** Sample classifications and dispatches *)
Section Samples.

Example ex_find : detect_intent "Find Uganda Breweries" =
  ("search_tin"%string, Some (Some (s2c "uganda"))).
Proof. vm_compute. reflexivity. Qed.

Example ex_sector : detect_intent "sector retail tin" = ("search_tin"%string, None).
Proof. vm_compute. reflexivity. Qed.

Example ex_risk : detect_intent "risk analysis for x1" =
  ("risk_analysis"%string, Some (Some (s2c "1"))).
Proof. vm_compute. reflexivity. Qed.

Example ex_help : detect_intent "  hello  " = ("help"%string, None).
Proof. vm_compute. reflexivity. Qed.

Example ex_ask : generate_response empty_store "search_tin" (Some (Some [])) = ([], Returned AskTin VNone).
Proof. reflexivity. Qed.

Example ex_name : fst (generate_response empty_store "search_name" None) = [QName (Some ""%string)].
Proof. reflexivity. Qed.

End Samples.

(** * Properties of the further code *)

(** ** Classification and the chat turn *)
Section ChatTurn.

Lemma detect_loop_cons : forall c cs s,
  detect_loop (c :: cs) s =
  match first_match (ic_patterns c) s with
  | Some v => (ic_intent c, Some v)
  | None => if keyword_hit c s then (ic_intent c, None) else detect_loop cs s
  end.
Proof. reflexivity. Qed.

Lemma prefixb_app_l : forall l1 l2 u, prefixb (l1 ++ l2) u = true -> prefixb l1 u = true.
Proof.
  induction l1 as [|a l1 IH]; intros l2 u H; [reflexivity|].
  destruct u as [|b u]; [discriminate|]. simpl in *.
  apply andb_true_iff in H as [H1 H2]. rewrite H1. simpl. exact (IH _ _ H2).
Qed.

Lemma contains_app_l : forall l1 l2 t, contains (l1 ++ l2) t = true -> contains l1 t = true.
Proof.
  intros l1 l2. induction t as [|c t IH]; intros H; simpl in *;
    apply orb_true_iff in H as [H | H].
  - rewrite (prefixb_app_l _ _ _ H). reflexivity.
  - discriminate.
  - rewrite (prefixb_app_l _ _ _ H). reflexivity.
  - rewrite (IH H). apply orb_true_r.
Qed.

Lemma search_lit_contains : forall l k t, search (lit l k) t <> None -> contains l t = true.
Proof.
  intros l k. induction t as [|c t IH]; intros H.
  - cbn [search] in H. rewrite m_lit in H. simpl.
    destruct (prefixb l []); [reflexivity|]. contradiction.
  - cbn [search] in H. rewrite m_lit in H. cbn [contains].
    destruct (prefixb l (c :: t)); [reflexivity|]. simpl. exact (IH H).
Qed.

Lemma first_match_kw_word : forall ks t, first_match (map kw_word ks) t <> None ->
  exists k, In k ks /\ contains (s2c k) t = true.
Proof.
  induction ks as [|k ks IH]; intros t H; [contradiction|].
  cbn [map first_match] in H. destruct (search (kw_word k) t) eqn:E.
  - exists k. split; [left; reflexivity|].
    apply (search_lit_contains _ (lit (s2c " ") (RGroup (RPlus RWord))) t).
    unfold kw_word, L in E. rewrite E. discriminate.
  - destruct (IH t H) as (k' & Hin & Hc). exists k'. split; [right; exact Hin | exact Hc].
Qed.

Lemma search_tin_keywords : forall t k,
  In k ["search"; "find"; "tin"; "taxpayer"]%string -> contains (s2c k) t = true ->
  existsb (fun k => contains (s2c k) t) ["tin"; "search"; "find"; "taxpayer"]%string = true.
Proof.
  intros t k Hin Hc. apply existsb_exists. exists k. split; [|exact Hc].
  simpl in *. tauto.
Qed.

Lemma detect_pattern_cfg : forall s tag v, detect_intent s = (tag, Some v) ->
  exists c, In c intents /\ ic_intent c = tag /\ first_match (ic_patterns c) (normalize s) = Some v.
Proof.
  intros s tag v H. unfold detect_intent in H.
  destruct (detect_loop_cases intents (normalize s))
    as [(pre & c & post & Heq & _ & [(v' & Hm & Hd) | (_ & _ & Hd)]) | (_ & Hd)];
    rewrite Hd in H; inversion H; subst.
  exists c. split; [rewrite Heq; apply in_or_app; right; left; reflexivity | split; [reflexivity | exact Hm]].
Qed.

(** The ["search_tin"] definition, whose patterns are [kw_word] of its own
    keywords, is chosen exactly when one of the keywords occurs. *)
Lemma detect_search_tin_iff : forall s,
  fst (detect_intent s) = "search_tin"%string <->
  existsb (fun k => contains (s2c k) (normalize s)) ["tin"; "search"; "find"; "taxpayer"]%string = true.
Proof.
  intros s. unfold detect_intent. set (t := normalize s). unfold intents.
  rewrite detect_loop_cons. cbn [ic_patterns ic_intent].
  match goal with |- context [first_match ?P t] => destruct (first_match P t) as [v|] eqn:E end.
  - split; [intros _|reflexivity].
    destruct (first_match_kw_word ["search"; "find"; "tin"; "taxpayer"]%string t)
      as (k & Hin & Hc); [cbn [map]; rewrite E; discriminate|].
    exact (search_tin_keywords t k Hin Hc).
  - unfold keyword_hit at 1. cbn [ic_keywords].
    destruct (existsb (fun k => contains (s2c k) t) ["tin"; "search"; "find"; "taxpayer"]%string) eqn:Hk.
    + split; reflexivity.
    + split; [|discriminate]. intros H.
      match goal with |- _ => idtac end.
      match type of H with fst (detect_loop ?cs t) = _ =>
        pose proof (detect_loop_in cs t) as Hin end.
      rewrite H in Hin. simpl in Hin. intuition discriminate.
Qed.

Lemma search_name_no_param : forall s,
  fst (detect_intent s) = "search_name"%string -> detect_intent s = ("search_name"%string, None).
Proof.
  intros s H. unfold detect_intent in *. set (t := normalize s) in *. unfold intents in *.
  rewrite detect_loop_cons in *. cbn [ic_patterns ic_intent] in *.
  match goal with H : context [first_match ?P t] |- _ => destruct (first_match P t) end;
    [discriminate H|].
  destruct (keyword_hit _ t) eqn:Hk1; [discriminate H|].
  rewrite detect_loop_cons in *. cbn [ic_patterns ic_intent] in *.
  destruct (first_match [search_name_pat1; search_name_pat2] t) as [v|] eqn:E2.
  - exfalso. unfold keyword_hit in Hk1. cbn [ic_keywords] in Hk1.
    assert (Hc : contains (s2c "search") t = true \/ contains (s2c "find") t = true).
    { cbn [first_match] in E2.
      destruct (search search_name_pat1 t) eqn:S1.
      - left. apply (contains_app_l _ [" "%char]).
        unfold search_name_pat1, L in S1. eapply search_lit_contains.
        change (s2c "search" ++ [" "%char]) with (s2c "search "). rewrite S1. discriminate.
      - destruct (search search_name_pat2 t) eqn:S2; [|discriminate E2].
        right. apply (contains_app_l _ [" "%char]).
        unfold search_name_pat2, L in S2. eapply search_lit_contains.
        change (s2c "find" ++ [" "%char]) with (s2c "find "). rewrite S2. discriminate. }
    destruct Hc as [Hc | Hc];
      [rewrite (search_tin_keywords t "search" ltac:(simpl; tauto) Hc) in Hk1
      |rewrite (search_tin_keywords t "find" ltac:(simpl; tauto) Hc) in Hk1]; discriminate.
  - match type of H with context [keyword_hit ?c t] => destruct (keyword_hit c t) end;
      [reflexivity|].
    exfalso. match type of H with fst (detect_loop ?cs t) = _ =>
      pose proof (detect_loop_in cs t) as Hin end.
    rewrite H in Hin. simpl in Hin. intuition discriminate.
Qed.

Lemma star_any : forall n g s, length s <= n ->
  star_iter (m RAny) n g s = map (fun u => (g, u)) (any_suffixes s).
Proof.
  induction n as [|n IH]; intros g s Hn.
  - destruct s; [reflexivity|simpl in Hn; lia].
  - destruct s as [|d s]; [reflexivity|]. cbn [star_iter any_suffixes].
    destruct (Ascii.eqb d "010"%char) eqn:Hd.
    + assert (Hm : m RAny g (d :: s) = []) by (simpl; rewrite Hd; reflexivity).
      rewrite Hm. reflexivity.
    + assert (Hm : m RAny g (d :: s) = [(g, s)]) by (simpl; rewrite Hd; reflexivity).
      rewrite Hm. cbn [flat_map fst snd].
      replace (length s <? length (d :: s))%nat with true by (symmetry; apply Nat.ltb_lt; simpl; lia).
      simpl in Hn. rewrite IH by lia. rewrite app_nil_r, map_app. reflexivity.
Qed.

Lemma flat_map_map' : forall (A B C : Type) (f : B -> list C) (h : A -> B) l,
  flat_map f (map h l) = flat_map (fun x => f (h x)) l.
Proof. induction l as [|x l IH]; simpl; [|rewrite IH]; reflexivity. Qed.

Lemma any_word_m : forall g u,
  m (RSeq (RStar RAny) (RGroup (RPlus RWord))) g u =
  flat_map (fun v => m (RGroup (RPlus RWord)) g v) (any_suffixes u).
Proof.
  intros g u.
  change (m (RSeq (RStar RAny) (RGroup (RPlus RWord))) g u) with
    (flat_map (fun p => m (RGroup (RPlus RWord)) (fst p) (snd p))
              (star_iter (m RAny) (length u) g u)).
  rewrite star_any by lia. rewrite flat_map_map'. reflexivity.
Qed.

Lemma in_self_any_suffixes : forall u, In u (any_suffixes u).
Proof.
  induction u as [|d u IH]; simpl; [left; reflexivity|].
  destruct (Ascii.eqb d "010"%char); [left; reflexivity|].
  apply in_or_app. right. left. reflexivity.
Qed.

Lemma takew_not_word : forall u, starts_word u = false -> takew u = [].
Proof. intros [|d u] H; [reflexivity|]. simpl in *. rewrite H. reflexivity. Qed.

Lemma flat_map_nil_in : forall (A B : Type) (f : A -> list B) l x,
  flat_map f l = [] -> In x l -> f x = [].
Proof.
  intros A B f l x H Hx. destruct (f x) as [|y ys] eqn:E; [reflexivity|].
  exfalso. assert (Hy : In y (flat_map f l)) by (apply in_flat_map; exists x; rewrite E; simpl; tauto).
  rewrite H in Hy. exact Hy.
Qed.

(** Behind [.*], the group [(\w+)] holds one character: [.*] takes all it
    can, so [\w+] starts at the last word character of the line. *)
Lemma single_capture : forall g u,
  flat_map (fun v => m (RGroup (RPlus RWord)) g v) (any_suffixes u) = []
  \/ exists c r rest,
       flat_map (fun v => m (RGroup (RPlus RWord)) g v) (any_suffixes u) = (Some [c], r) :: rest
       /\ is_word c = true.
Proof.
  intros g. induction u as [|d u IH].
  - left. reflexivity.
  - cbn [any_suffixes]. destruct (Ascii.eqb d "010"%char) eqn:Hd.
    + left. apply Ascii.eqb_eq in Hd. subst d. cbn [flat_map].
      rewrite (group_word_none g ("010"%char :: u) eq_refl). reflexivity.
    + rewrite flat_map_app. destruct IH as [IH | (c & r & rest & IH & Hc)].
      * rewrite IH. cbn [flat_map app]. rewrite app_nil_r.
        assert (Hu : m (RGroup (RPlus RWord)) g u = [])
          by exact (flat_map_nil_in _ _ _ _ u IH (in_self_any_suffixes u)).
        assert (Hs : starts_word u = false).
        { destruct (starts_word u) eqn:E; [|reflexivity].
          destruct (group_word_head g u E) as [rest Hr]. rewrite Hu in Hr. discriminate. }
        destruct (is_word d) eqn:Hw.
        -- right. destruct (group_word_head g (d :: u) Hw) as [rest Hr]. rewrite Hr.
           exists d, (dropw (d :: u)), rest. split; [|exact Hw].
           simpl. rewrite Hw, (takew_not_word u Hs). reflexivity.
        -- left. apply group_word_none. simpl. exact Hw.
      * right. rewrite IH. exists c, r, (rest ++ flat_map (fun v => m (RGroup (RPlus RWord)) g v) [d :: u]).
        split; [reflexivity | exact Hc].
Qed.

Lemma search_any_word : forall kw t,
  search (kw_any_word kw) t = None \/
  exists c, search (kw_any_word kw) t = Some (Some [c]) /\ is_word c = true.
Proof.
  intros kw t. unfold kw_any_word, L. induction t as [|d t IH].
  - cbn [search]. rewrite m_lit.
    destruct (prefixb (s2c kw) []); [|left; reflexivity].
    rewrite any_word_m. destruct (single_capture None (skipn (length (s2c kw)) []))
      as [-> | (c & r & rest & -> & Hc)]; [left; reflexivity | right; exists c; split; [reflexivity | exact Hc]].
  - cbn [search]. rewrite m_lit.
    destruct (prefixb (s2c kw) (d :: t)); [|exact IH].
    rewrite any_word_m. destruct (single_capture None (skipn (length (s2c kw)) (d :: t)))
      as [-> | (c & r & rest & -> & Hc)]; [exact IH | right; exists c; split; [reflexivity | exact Hc]].
Qed.

Lemma has_group_lit : forall l k, has_group (lit l k) = has_group k.
Proof. induction l as [|c l IH]; intros k; simpl; [|rewrite IH]; reflexivity. Qed.

Lemma first_match_any_word : forall ks t v, first_match (map kw_any_word ks) t = Some v ->
  exists c, v = Some [c] /\ is_word c = true.
Proof.
  induction ks as [|k ks IH]; intros t v H; [discriminate|].
  cbn [map first_match] in H.
  assert (Hg : has_group (kw_any_word k) = true)
    by (unfold kw_any_word, L; rewrite has_group_lit; reflexivity).
  rewrite Hg in H.
  destruct (search_any_word k t) as [E | (c & E & Hc)]; rewrite E in H.
  - exact (IH t v H).
  - inversion H. exists c. split; [reflexivity | exact Hc].
Qed.

End ChatTurn.

(** ** The chat turn *)
Section ChatTheorems.

Lemma intents_cfg_tag : forall c tag, In c intents -> ic_intent c = tag ->
  (tag = "related"%string -> ic_patterns c = map kw_any_word ["similar"; "related"; "network"]%string) /\
  (tag = "pathway"%string -> ic_patterns c = map kw_any_word ["evidence"; "pathway"]%string) /\
  (tag = "sector_analysis"%string -> ic_patterns c = map kw_word ["sector"; "industry"]%string).
Proof.
  intros c tag Hin Htag. subst tag. unfold intents in Hin. simpl in Hin.
  repeat (destruct Hin as [<- | Hin]; [repeat split; intros Ht; try reflexivity; discriminate Ht |]).
  contradiction.
Qed.

(** A message classified ["search_name"] never carries a parameter, so the
    name searched is always the empty string, whatever the message says. *)
Theorem search_name_ignores_message : forall st s1 s2,
  fst (detect_intent s1) = "search_name"%string ->
  fst (detect_intent s2) = "search_name"%string ->
  chat st s1 = chat st s2 /\ fst (chat st s1) = [QName (Some ""%string)].
Proof.
  intros st s1 s2 H1 H2. unfold chat.
  rewrite (search_name_no_param s1 H1), (search_name_no_param s2 H2). split; [reflexivity|].
  unfold generate_response, bind, search_taxpayer_by_name. simpl.
  destruct (rows_or_empty (run_name st (Some ""%string))); reflexivity.
Qed.

Lemma search_name_ignores_message_witness :
  fst (detect_intent "company XYZ") = "search_name"%string /\
  fst (detect_intent "Business registry") = "search_name"%string /\
  chat empty_store "company XYZ" = chat empty_store "Business registry" /\
  fst (chat empty_store "company XYZ") = [QName (Some ""%string)].
Proof.
  split; [vm_compute; reflexivity|]. split; [vm_compute; reflexivity|].
  apply search_name_ignores_message; vm_compute; reflexivity.
Defined.

(** A message classified ["related"] with a parameter sends a TIN of one
    character: the last word character after the keyword. *)
Theorem related_one_char_tin : forall st s v,
  detect_intent s = ("related"%string, Some v) ->
  exists c, is_word c = true /\ v = Some [c] /\
    fst (chat st s) = [QRelated (String c EmptyString)].
Proof.
  intros st s v H.
  destruct (detect_pattern_cfg s _ _ H) as (cfg & Hin & Htag & Hm).
  destruct (intents_cfg_tag cfg _ Hin Htag) as [Hp _]. rewrite (Hp eq_refl) in Hm.
  destruct (first_match_any_word _ _ _ Hm) as (c & -> & Hc).
  exists c. split; [exact Hc | split; [reflexivity|]].
  unfold chat. rewrite H. unfold generate_response, bind, find_related_taxpayers. simpl.
  destruct (rows_or_empty (run_related st (String c EmptyString))); reflexivity.
Qed.

Lemma related_one_char_tin_witness :
  exists v, detect_intent "Similar to 1234567890" = ("related"%string, Some v) /\
  exists c, is_word c = true /\ v = Some [c] /\
    fst (chat empty_store "Similar to 1234567890") = [QRelated (String c EmptyString)].
Proof.
  exists (Some ["0"%char]). split; [vm_compute; reflexivity|].
  apply related_one_char_tin. vm_compute. reflexivity.
Defined.

(** A message classified ["pathway"] with a parameter first looks up a TIN
    of one character. *)
Theorem pathway_one_char_tin : forall st s v,
  detect_intent s = ("pathway"%string, Some v) ->
  exists c qs, is_word c = true /\ v = Some [c] /\
    fst (chat st s) = QTin (String c EmptyString) :: qs.
Proof.
  intros st s v H.
  destruct (detect_pattern_cfg s _ _ H) as (cfg & Hin & Htag & Hm).
  destruct (intents_cfg_tag cfg _ Hin Htag) as [_ [Hp _]]. rewrite (Hp eq_refl) in Hm.
  destruct (first_match_any_word _ _ _ Hm) as (c & -> & Hc).
  unfold chat. rewrite H. unfold generate_response, bind, search_taxpayer_by_tin. simpl.
  match goal with |- context [let (q2, b) := ?X in _] => destruct X as [q2 b] end.
  exists c, q2. split; [exact Hc | split; reflexivity].
Qed.

Lemma pathway_one_char_tin_witness :
  exists v, detect_intent "Evidence pathway 1234567890" = ("pathway"%string, Some v) /\
  exists c qs, is_word c = true /\ v = Some [c] /\
    fst (chat empty_store "Evidence pathway 1234567890") = QTin (String c EmptyString) :: qs.
Proof.
  exists (Some ["0"%char]). split; [vm_compute; reflexivity|].
  apply pathway_one_char_tin. vm_compute. reflexivity.
Defined.

End ChatTheorems.

(** ** The sector parameter *)
Section SectorParam.

Lemma lower_char_not_upper : forall c, is_upper (lower_char c) = false.
Proof. intros [[][][][][][][][]]; vm_compute; reflexivity. Qed.

Lemma lstrip_forall : forall (P : ascii -> Prop) s, Forall P s -> Forall P (lstrip s).
Proof.
  intros P s H. induction H as [|c s Hc Hs IH]; [constructor|].
  simpl. destruct (is_space c); [exact IH | constructor; assumption].
Qed.

Lemma normalize_no_upper : forall s, Forall (fun c => is_upper c = false) (normalize s).
Proof.
  intros s. unfold normalize, py_strip, py_lower.
  apply Forall_rev, lstrip_forall, Forall_rev, lstrip_forall.
  apply Forall_forall. intros c Hc. apply in_map_iff in Hc as (d & <- & _).
  apply lower_char_not_upper.
Qed.

Lemma takew_forall : forall (P : ascii -> Prop) s, Forall P s -> Forall P (takew s).
Proof.
  intros P s H. induction H as [|c s Hc Hs IH]; [constructor|].
  simpl. destruct (is_word c); [constructor; assumption | constructor].
Qed.

Lemma skipn_forall : forall (P : ascii -> Prop) n s, Forall P s -> Forall P (skipn n s).
Proof.
  intros P n. induction n as [|n IH]; intros s H; [exact H|].
  destruct H as [|c s _ Hs]; [constructor | exact (IH s Hs)].
Qed.

Lemma word_after_forall : forall (P : ascii -> Prop) kw t w,
  Forall P t -> word_after kw t = Some w -> Forall P w.
Proof.
  intros P kw t w Ht. induction Ht as [|c t Hc Ht IH]; intros H.
  - cbn [word_after] in H.
    destruct (prefixb (kw ++ [" "%char]) [] && starts_word (skipn (length kw + 1) [])).
    + inversion H. subst. apply takew_forall, skipn_forall. constructor.
    + discriminate.
  - cbn [word_after] in H.
    destruct (prefixb (kw ++ [" "%char]) (c :: t) && starts_word (skipn (length kw + 1) (c :: t))).
    + inversion H. subst. apply takew_forall, skipn_forall. constructor; assumption.
    + exact (IH H).
Qed.

Lemma first_match_kw_word_forall : forall (P : ascii -> Prop) ks t v,
  Forall P t -> first_match (map kw_word ks) t = Some v -> exists w, v = Some w /\ Forall P w.
Proof.
  intros P ks t v Ht. induction ks as [|k ks IH]; intros H; [discriminate|].
  cbn [map first_match] in H. rewrite search_kw_word in H.
  destruct (word_after (s2c k) t) as [w|] eqn:E.
  - assert (Hg : has_group (kw_word k) = true)
      by (unfold kw_word, L; rewrite !has_group_lit; reflexivity).
    rewrite Hg in H. inversion H. exists w. split; [reflexivity|].
    exact (word_after_forall P _ _ _ Ht E).
  - exact (IH H).
Qed.

Lemma existsb_false_forall : forall (f : ascii -> bool) l,
  Forall (fun c => f c = false) l -> existsb f l = false.
Proof. intros f l H. induction H as [|c l Hc _ IH]; simpl; [|rewrite Hc, IH]; reflexivity. Qed.

Lemma filter_none : forall (A : Type) (f : A -> bool) l,
  (forall x, In x l -> f x = false) -> filter f l = [].
Proof.
  intros A f l H. induction l as [|x l IH]; [reflexivity|].
  simpl. rewrite (H x (or_introl eq_refl)). apply IH. intros y Hy. exact (H y (or_intror Hy)).
Qed.

Lemma sector_query_no_upper : forall g w,
  (forall e, In e (g_flagged g) -> has_upper (Sector (fb_taxpayer e)) = true) ->
  has_upper w = false -> sector_query g (Some w) = [].
Proof.
  intros g w Hg Hw. unfold sector_query.
  rewrite (filter_none _ _ (g_flagged g)); [reflexivity|].
  intros e He. destruct (String.eqb (Sector (fb_taxpayer e)) w) eqn:E; [|reflexivity].
  apply String.eqb_eq in E. rewrite <- E, (Hg e He) in Hw. discriminate.
Qed.

(** [detect_intent] lowercases the message before it extracts the sector,
    while the sector query compares [t.Sector] with the exact string: when
    every stored sector name has a capital letter, as "Manufacturing" has,
    a sector typed after "sector" or "industry" finds no data. *)
Theorem sector_param_lowercase_no_data : forall g st s v,
  runs_sector g st ->
  (forall e, In e (g_flagged g) -> has_upper (Sector (fb_taxpayer e)) = true) ->
  detect_intent s = ("sector_analysis"%string, Some v) ->
  exists w, v = Some w /\ has_upper (string_of_list_ascii w) = false /\
    chat st s = ([QSector (Some (string_of_list_ascii w))],
                 Returned (NoSectorData (Some (string_of_list_ascii w))) VNone).
Proof.
  intros g st s v Hrun Hg H.
  destruct (detect_pattern_cfg s _ _ H) as (cfg & Hin & Htag & Hm).
  destruct (intents_cfg_tag cfg _ Hin Htag) as [_ [_ Hp]]. rewrite (Hp eq_refl) in Hm.
  destruct (first_match_kw_word_forall _ _ _ _ (normalize_no_upper s) Hm) as (w & -> & Hw).
  assert (Hu : has_upper (string_of_list_ascii w) = false).
  { unfold has_upper, s2c. rewrite list_ascii_of_string_of_list_ascii.
    exact (existsb_false_forall _ _ Hw). }
  exists w. split; [reflexivity | split; [exact Hu|]].
  unfold chat. rewrite H. unfold generate_response, bind, get_sector_risk_profile. simpl.
  destruct (Hrun (Some (string_of_list_ascii w))) as [E | E]; rewrite E; [reflexivity|].
  rewrite (sector_query_no_upper g _ Hg Hu). reflexivity.
Qed.

Lemma sector_param_lowercase_no_data_witness :
  sector_query mills_graph (Some "Manufacturing"%string) <> [] /\
  exists v, detect_intent "Sector Manufacturing" = ("sector_analysis"%string, Some v) /\
  exists w, v = Some w /\ has_upper (string_of_list_ascii w) = false /\
    chat (sector_store mills_graph) "Sector Manufacturing" =
      ([QSector (Some (string_of_list_ascii w))],
       Returned (NoSectorData (Some (string_of_list_ascii w))) VNone).
Proof.
  split; [vm_compute; discriminate|].
  exists (Some (s2c "manufacturing")). split; [vm_compute; reflexivity|].
  apply (sector_param_lowercase_no_data mills_graph).
  - intros sec. right. reflexivity.
  - intros e [<- | []]. vm_compute. reflexivity.
  - vm_compute. reflexivity.
Defined.

End SectorParam.

(** ** The write operations of the task page *)
Section TaskWrites.
Import Tasks.

Lemma mem_in : forall x l, mem x l = true <-> In x l.
Proof.
  intros x l. unfold mem. rewrite existsb_exists. split.
  - intros (y & Hy & E). apply String.eqb_eq in E. subst. exact Hy.
  - intros H. exists x. split; [exact H | apply String.eqb_refl].
Qed.

Lemma set_task_noop : forall d id f, has_task d id = false -> set_task d id f = d.
Proof.
  intros [ts a tins rs] id f H. unfold set_task, has_task in *. simpl in *. f_equal.
  induction ts as [|t ts IH]; [reflexivity|]. simpl in *.
  apply orb_false_iff in H as [H1 H2]. rewrite H1. f_equal. exact (IH H2).
Qed.

Lemma set_task_compose : forall d id f1 f2, (forall t, TaskID (f1 t) = TaskID t) ->
  set_task (set_task d id f1) id f2 = set_task d id (fun t => f2 (f1 t)).
Proof.
  intros d id f1 f2 Hf. unfold set_task. simpl. f_equal. rewrite map_map.
  apply map_ext. intros t. destruct (String.eqb (TaskID t) id) eqn:E; [rewrite Hf, E|rewrite E]; reflexivity.
Qed.

Lemma has_task_set_task : forall d id f, (forall t, TaskID (f t) = TaskID t) ->
  has_task (set_task d id f) id = has_task d id.
Proof.
  intros [ts a tins rs] id f Hf. unfold set_task, has_task. simpl.
  induction ts as [|t ts IH]; [reflexivity|]. simpl.
  destruct (String.eqb (TaskID t) id) eqn:E; [rewrite Hf, E; reflexivity | rewrite E; exact IH].
Qed.

Lemma find_task_set_task : forall d id f t, (forall t, TaskID (f t) = TaskID t) ->
  find_task d id = Some t -> find_task (set_task d id f) id = Some (f t).
Proof.
  intros [ts a tins rs] id f t Hf. unfold find_task, set_task. simpl.
  induction ts as [|u ts IH]; [discriminate|]. simpl.
  destruct (String.eqb (TaskID u) id) eqn:E.
  - intros H. inversion H. subst. rewrite Hf, E. reflexivity.
  - rewrite E. exact IH.
Qed.

Lemma find_task_app_fresh : forall ts a tins rs t id,
  has_task (mkDb ts a tins rs) id = false -> TaskID t = id ->
  find_task (mkDb (ts ++ [t]) a tins rs) id = Some t.
Proof.
  intros ts a tins rs t id H Ht. unfold has_task, find_task in *. simpl in *.
  induction ts as [|u ts IH]; simpl in *.
  - subst. rewrite String.eqb_refl. reflexivity.
  - apply orb_false_iff in H as [H1 H2]. rewrite H1. exact (IH H2).
Qed.

Lemma set_task_frame : forall d id f, (forall t, same_fixed t (f t)) ->
  Forall2 (fun t t' => same_fixed t t' /\ (TaskID t <> id -> t' = t))
          (tasks d) (tasks (set_task d id f)).
Proof.
  intros [ts a tins rs] id f Hf. unfold set_task. simpl.
  induction ts as [|t ts IH]; simpl; constructor; [|exact IH].
  destruct (String.eqb (TaskID t) id) eqn:E.
  - split; [apply Hf|]. intros Hn. apply String.eqb_eq in E. contradiction.
  - split; [|reflexivity]. repeat split; reflexivity.
Qed.

Lemma same_fixed_refl : forall t, same_fixed t t.
Proof. intros t. repeat split; reflexivity. Qed.

Ltac same_fixed_mk := intros ?; repeat split; reflexivity.

(** Every update operation is one [SET] on the tasks it names, or nothing. *)
Lemma exec_as_set_task : forall d op id stamp now, op_task_id op = Some id ->
  exists f,
    (fst (exec d op stamp now) = d \/ fst (exec d op stamp now) = set_task d id f) /\
    (forall t, same_fixed t (f t)) /\
    (forall t, Notes t <> None -> Notes (f t) <> None) /\
    (forall t, assigned_auditor (f t) = assigned_auditor t \/ In (assigned_auditor (f t)) (auditor_ids d)) /\
    (forall t r, In r (linked_risks (f t)) -> In r (linked_risks t) \/ In r (risk_ids d)).
Proof.
  intros d op id stamp now H.
  destruct op as [data uuid | tid s n | tid p | tid a | tid n | tid r | tid n];
    cbn [op_task_id] in H; inversion H; subst tid; clear H; cbn [exec].
  - (* update_task_status *)
    unfold update_task_status. cbn [fst].
    destruct (String.eqb n "") eqn:En.
    + eexists. split; [right; reflexivity|].
      split; [same_fixed_mk|]. split; [intros t Ht; exact Ht|].
      split; [intros t; left; reflexivity | intros t r Hr; left; exact Hr].
    + unfold add_task_note. cbn [fst]. rewrite set_task_compose by reflexivity.
      eexists. split; [right; reflexivity|].
      split; [same_fixed_mk|]. split; [intros t _; simpl; destruct (Notes t); discriminate|].
      split; [intros t; left; reflexivity | intros t r Hr; left; exact Hr].
  - eexists. split; [right; reflexivity|].
    split; [same_fixed_mk|]. split; [intros t Ht; exact Ht|].
    split; [intros t; left; reflexivity | intros t r Hr; left; exact Hr].
  - unfold reassign_task. destruct (mem a (auditor_ids d)) eqn:Ea.
    + eexists. split; [right; reflexivity|].
      split; [same_fixed_mk|]. split; [intros t Ht; exact Ht|].
      split; [intros t; right; apply mem_in; exact Ea | intros t r Hr; left; exact Hr].
    + exists (fun t => t). split; [left; reflexivity|].
      split; [intros t; apply same_fixed_refl|]. split; [intros t Ht; exact Ht|].
      split; [intros t; left; reflexivity | intros t r' Hr; left; exact Hr].
  - eexists. split; [right; reflexivity|].
    split; [same_fixed_mk|]. split; [intros t _; simpl; destruct (Notes t); discriminate|].
    split; [intros t; left; reflexivity | intros t r Hr; left; exact Hr].
  - unfold link_risk_to_task. destruct (mem r (risk_ids d)) eqn:Er.
    + eexists. split; [right; reflexivity|].
      split; [same_fixed_mk|]. split; [intros t Ht; exact Ht|].
      split; [intros t; left; reflexivity|].
      intros t r' Hr. cbn [with_link linked_risks] in Hr. apply in_app_or in Hr.
      destruct Hr as [Hr | [<- | []]]; [left; exact Hr | right; apply mem_in; exact Er].
    + exists (fun t => t). split; [left; reflexivity|].
      split; [intros t; apply same_fixed_refl|]. split; [intros t Ht; exact Ht|].
      split; [intros t; left; reflexivity | intros t r' Hr; left; exact Hr].
  - eexists. split; [right; reflexivity|].
    split; [same_fixed_mk|]. split; [intros t _; simpl; destruct (Notes t); discriminate|].
    split; [intros t; left; reflexivity | intros t r Hr; left; exact Hr].
Qed.

Lemma Forall2_frame_refl : forall id ts,
  Forall2 (fun t t' => same_fixed t t' /\ (TaskID t <> id -> t' = t)) ts ts.
Proof.
  intros id ts. induction ts as [|t ts IH]; constructor; [|exact IH].
  split; [apply same_fixed_refl | reflexivity].
Qed.

Lemma has_task_mk : forall d id,
  has_task (mkDb (tasks d) (auditor_ids d) (taxpayer_tins d) (risk_ids d)) id = has_task d id.
Proof. intros [ts a tins rs] id. reflexivity. Qed.

(** An update operation that names a task id no task has changes nothing
    and returns [False]. *)
Theorem exec_unknown_task_noop : forall d op id stamp now,
  op_task_id op = Some id -> has_task d id = false -> exec d op stamp now = (d, false).
Proof.
  intros d op id stamp now Hop Hn.
  destruct op as [data uuid | tid s n | tid p | tid a | tid n | tid r | tid n];
    cbn [op_task_id] in Hop; inversion Hop; subst tid; clear Hop; cbn [exec].
  - unfold update_task_status. rewrite (set_task_noop d id _ Hn), Hn.
    destruct (String.eqb n ""); [reflexivity|].
    unfold add_task_note. cbn [fst]. rewrite (set_task_noop d id _ Hn). reflexivity.
  - unfold update_task_progress. rewrite (set_task_noop d id _ Hn), Hn. reflexivity.
  - unfold reassign_task. destruct (mem a (auditor_ids d)); [|reflexivity].
    rewrite (set_task_noop d id _ Hn), Hn. reflexivity.
  - unfold add_task_note. rewrite (set_task_noop d id _ Hn), Hn. reflexivity.
  - unfold link_risk_to_task. destruct (mem r (risk_ids d)); [|reflexivity].
    rewrite (set_task_noop d id _ Hn), Hn. reflexivity.
  - unfold complete_task. rewrite (set_task_noop d id _ Hn), Hn. reflexivity.
Qed.

Lemma exec_unknown_task_noop_witness :
  op_task_id (OpProgress "T9" 100) = Some "T9"%string /\ has_task status_path_db "T9" = false /\
  exec status_path_db (OpProgress "T9" 100) "2025-01-03 09:00" 400 = (status_path_db, false).
Proof.
  split; [reflexivity|]. split; [vm_compute; reflexivity|].
  apply (exec_unknown_task_noop _ _ "T9"%string); [reflexivity | vm_compute; reflexivity].
Defined.

(** An update operation changes only the tasks with the id it names, keeps
    the order of the tasks, never writes the id, name, description,
    priority, dates of assignment, due date and creation, exposure or
    target of a task, and never changes the auditors, taxpayers or risk
    flags. *)
Theorem exec_update_frame : forall d op id stamp now,
  op_task_id op = Some id ->
  auditor_ids (fst (exec d op stamp now)) = auditor_ids d /\
  taxpayer_tins (fst (exec d op stamp now)) = taxpayer_tins d /\
  risk_ids (fst (exec d op stamp now)) = risk_ids d /\
  Forall2 (fun t t' => same_fixed t t' /\ (TaskID t <> id -> t' = t))
          (tasks d) (tasks (fst (exec d op stamp now))).
Proof.
  intros d op id stamp now Hop.
  destruct (exec_as_set_task d op id stamp now Hop) as (f & [E | E] & Hf & _); rewrite E.
  - split; [reflexivity|]. split; [reflexivity|]. split; [reflexivity|]. apply Forall2_frame_refl.
  - split; [reflexivity|]. split; [reflexivity|]. split; [reflexivity|]. apply set_task_frame. exact Hf.
Qed.

Lemma exec_update_frame_witness :
  op_task_id (OpReassign "T1" "AUD1") = Some "T1"%string /\
  (auditor_ids (fst (exec status_path_db (OpReassign "T1" "AUD1") "2025-01-03 09:00" 400)) = auditor_ids status_path_db /\
  taxpayer_tins (fst (exec status_path_db (OpReassign "T1" "AUD1") "2025-01-03 09:00" 400)) = taxpayer_tins status_path_db /\
  risk_ids (fst (exec status_path_db (OpReassign "T1" "AUD1") "2025-01-03 09:00" 400)) = risk_ids status_path_db /\
  Forall2 (fun t t' => same_fixed t t' /\ (TaskID t <> "T1"%string -> t' = t))
          (tasks status_path_db) (tasks (fst (exec status_path_db (OpReassign "T1" "AUD1") "2025-01-03 09:00" 400)))).
Proof. split; [reflexivity|]. apply exec_update_frame. reflexivity. Defined.

Lemma existsb_filter_nonempty : forall (f : string -> bool) l, existsb f l = true <-> filter f l <> [].
Proof.
  intros f l. induction l as [|x l IH]; simpl.
  - split; [discriminate | intros H; contradiction].
  - destruct (f x); simpl; [split; [intros _; discriminate | reflexivity]|exact IH].
Qed.

Lemma create_appends : forall d data uuid now,
  mem (td_taxpayer_tin data) (taxpayer_tins d) = true ->
  mem (td_auditor_id data) (auditor_ids d) = true ->
  exists t,
    fst (create_audit_task d data uuid now)
      = mkDb (tasks d ++ [t]) (auditor_ids d) (taxpayer_tins d) (risk_ids d) /\
    TaskID t = uuid /\ Notes t = Some (td_notes data) /\ assigned_auditor t = td_auditor_id data.
Proof.
  intros d data uuid now H1 H2. unfold create_audit_task. rewrite H1, H2. cbn [andb fst].
  eexists. split; [reflexivity|]. repeat split.
Qed.

(** When the taxpayer and the auditor exist, [create_audit_task] appends one
    task: Assigned, progress 0, no completion date, the form's notes, linked
    to the requested risk flags that exist.  It returns [True] only when at
    least one of those links is made: with no such risk flag the task is
    created all the same and the call returns [False]. *)
Theorem create_audit_task_outcome : forall d data uuid now,
  mem (td_taxpayer_tin data) (taxpayer_tins d) = true ->
  mem (td_auditor_id data) (auditor_ids d) = true ->
  exists t,
    fst (create_audit_task d data uuid now)
      = mkDb (tasks d ++ [t]) (auditor_ids d) (taxpayer_tins d) (risk_ids d) /\
    TaskID t = uuid /\ Status t = "Assigned"%string /\ ProgressPercent t = 0%Z /\
    CompletedDate t = None /\ Notes t = Some (td_notes data) /\
    assigned_auditor t = td_auditor_id data /\ target_tin t = td_taxpayer_tin data /\
    (forall r, In r (linked_risks t) <-> In r (risk_ids d) /\ In r (td_risk_ids data)) /\
    (snd (create_audit_task d data uuid now) = true <-> linked_risks t <> []).
Proof.
  intros d data uuid now H1 H2. unfold create_audit_task. rewrite H1, H2. cbn [andb fst snd].
  eexists. split; [reflexivity|]. cbn.
  do 7 (split; [reflexivity|]). split.
  - intros r. rewrite filter_In, mem_in. reflexivity.
  - apply existsb_filter_nonempty.
Qed.

Lemma create_audit_task_outcome_witness :
  let data := (mkTaskData "1000012345" "AUD1" "Audit Kampala Traders" "" "High"
                 1735689600000 2300000000 "" "System" ["R99"])%string in
  snd (create_audit_task demo_db data "T1" 100) = false /\
  mem (td_taxpayer_tin data) (taxpayer_tins demo_db) = true /\
  mem (td_auditor_id data) (auditor_ids demo_db) = true /\
  exists t,
    fst (create_audit_task demo_db data "T1" 100)
      = mkDb (tasks demo_db ++ [t]) (auditor_ids demo_db) (taxpayer_tins demo_db) (risk_ids demo_db) /\
    TaskID t = "T1"%string /\ Status t = "Assigned"%string /\ ProgressPercent t = 0%Z /\
    CompletedDate t = None /\ Notes t = Some (td_notes data) /\
    assigned_auditor t = td_auditor_id data /\ target_tin t = td_taxpayer_tin data /\
    (forall r, In r (linked_risks t) <-> In r (risk_ids demo_db) /\ In r (td_risk_ids data)) /\
    (snd (create_audit_task demo_db data "T1" 100) = true <-> linked_risks t <> []).
Proof.
  intros data. split; [vm_compute; reflexivity|].
  split; [vm_compute; reflexivity|]. split; [vm_compute; reflexivity|].
  apply create_audit_task_outcome; vm_compute; reflexivity.
Defined.

(** Every operation keeps the notes of every task non-null: creation stores
    the form's notes (the empty string by default), so the [Notes IS NULL]
    branch of the note queries is never taken on tasks the page creates. *)
Theorem notes_never_null : forall d op stamp now,
  Forall (fun t => Notes t <> None) (tasks d) ->
  Forall (fun t => Notes t <> None) (tasks (fst (exec d op stamp now))).
Proof.
  intros d op stamp now H. destruct (op_task_id op) as [id|] eqn:Hop.
  - destruct (exec_as_set_task d op id stamp now Hop) as (f & [E | E] & _ & Hn & _);
      rewrite E; [exact H|]. apply set_task_forall; [exact H | exact Hn].
  - destruct op; cbn [op_task_id] in Hop; try discriminate. cbn [exec].
    unfold create_audit_task. destruct (_ && _); [|exact H]. cbn [fst tasks].
    apply Forall_app. split; [exact H|]. constructor; [discriminate | constructor].
Qed.

Lemma notes_never_null_witness :
  Forall (fun t => Notes t <> None) (tasks status_path_db) /\
  Forall (fun t => Notes t <> None)
    (tasks (fst (exec status_path_db (OpNote "T1" "called the taxpayer") "2025-01-03 09:00" 400))).
Proof.
  assert (H : Forall (fun t => Notes t <> None) (tasks status_path_db))
    by (vm_compute; repeat constructor; discriminate).
  split; [exact H | apply notes_never_null; exact H].
Defined.

(** The first note added to a freshly created task is appended to the
    form's notes after a newline: a task created with empty notes gets a
    note text that starts with an empty line. *)
Theorem first_note_after_create : forall d data uuid now note stamp now',
  mem (td_taxpayer_tin data) (taxpayer_tins d) = true ->
  mem (td_auditor_id data) (auditor_ids d) = true ->
  has_task d uuid = false ->
  exists t,
    find_task (fst (add_task_note (fst (create_audit_task d data uuid now)) uuid note stamp now')) uuid = Some t /\
    Notes t = Some (td_notes data ++ String "010" ("[" ++ stamp ++ "] " ++ note))%string /\
    LastUpdated t = Some now'.
Proof.
  intros d data uuid now note stamp now' H1 H2 Hf.
  destruct (create_appends d data uuid now H1 H2) as (t0 & E & Hid & Hn & _).
  assert (Hfind : find_task (fst (create_audit_task d data uuid now)) uuid = Some t0).
  { rewrite E. apply find_task_app_fresh; [rewrite has_task_mk; exact Hf | exact Hid]. }
  unfold add_task_note. cbn [fst].
  rewrite (find_task_set_task _ _
             (fun t => with_notes t (append_note (Notes t) ("[" ++ stamp ++ "] " ++ note)%string) (Some now'))
             t0 (fun _ => eq_refl) Hfind).
  eexists. split; [reflexivity|]. cbn [with_notes Notes LastUpdated]. rewrite Hn.
  split; reflexivity.
Qed.

Lemma first_note_after_create_witness :
  mem (td_taxpayer_tin demo_data) (taxpayer_tins demo_db) = true /\
  mem (td_auditor_id demo_data) (auditor_ids demo_db) = true /\
  has_task demo_db "T1" = false /\
  exists t,
    find_task (fst (add_task_note (fst (create_audit_task demo_db demo_data "T1" 100)) "T1"
                  "opened the file" "2025-01-01 09:00" 200)) "T1" = Some t /\
    Notes t = Some (td_notes demo_data ++ String "010" ("[" ++ "2025-01-01 09:00" ++ "] " ++ "opened the file"))%string /\
    LastUpdated t = Some 200%Z.
Proof.
  split; [vm_compute; reflexivity|]. split; [vm_compute; reflexivity|].
  split; [vm_compute; reflexivity|].
  apply first_note_after_create; vm_compute; reflexivity.
Defined.



(** [update_task_progress] writes the clamped progress and nothing else of
    the task: a progress of 100 leaves the status and the completion date as
    they were. *)
Theorem progress_update_keeps_status : forall d id p now t,
  find_task d id = Some t ->
  exists t',
    find_task (fst (update_task_progress d id p now)) id = Some t' /\
    ProgressPercent t' = Z.max 0 (Z.min 100 p) /\ Status t' = Status t /\
    CompletedDate t' = CompletedDate t.
Proof.
  intros d id p now t Hf. unfold update_task_progress. cbn [fst].
  rewrite (find_task_set_task _ _ (fun t => with_progress t (Z.max 0 (Z.min 100 p)) (Some now))
             _ (fun _ => eq_refl) Hf).
  eexists. split; [reflexivity|]. cbn. repeat split; reflexivity.
Qed.

Lemma progress_update_keeps_status_witness :
  exists t, find_task (fst (create_audit_task demo_db demo_data "T1" 100)) "T1" = Some t /\
  exists t',
    find_task (fst (update_task_progress (fst (create_audit_task demo_db demo_data "T1" 100)) "T1" 100 200)) "T1" = Some t' /\
    ProgressPercent t' = Z.max 0 (Z.min 100 100) /\ Status t' = Status t /\
    CompletedDate t' = CompletedDate t.
Proof.
  eexists. split; [vm_compute; reflexivity|].
  apply progress_update_keeps_status. vm_compute. reflexivity.
Defined.

(** [link_risk_to_task] creates a new [LINKED_TO] edge on every call: linking
    the same risk flag twice links it twice. *)
Theorem link_twice_duplicates : forall d id r now now' t,
  find_task d id = Some t -> mem r (risk_ids d) = true ->
  exists t',
    find_task (fst (link_risk_to_task (fst (link_risk_to_task d id r now)) id r now')) id = Some t' /\
    linked_risks t' = linked_risks t ++ [r; r].
Proof.
  intros d id r now now' t Hf Hr. unfold link_risk_to_task. rewrite Hr. cbn [fst].
  replace (risk_ids (set_task d id (fun t => with_link t r (Some now)))) with (risk_ids d)
    by reflexivity.
  rewrite Hr. cbn [fst].
  pose proof (find_task_set_task d id (fun t => with_link t r (Some now)) t
                (fun _ => eq_refl) Hf) as H1.
  rewrite (find_task_set_task _ id (fun t => with_link t r (Some now')) _ (fun _ => eq_refl) H1).
  eexists. split; [reflexivity|]. cbn. rewrite <- app_assoc. reflexivity.
Qed.

Lemma link_twice_duplicates_witness :
  exists t, find_task status_path_db "T1" = Some t /\ mem "R01" (risk_ids status_path_db) = true /\
  exists t',
    find_task (fst (link_risk_to_task (fst (link_risk_to_task status_path_db "T1" "R01" 400)) "T1" "R01" 500)) "T1" = Some t' /\
    linked_risks t' = linked_risks t ++ ["R01"; "R01"]%string.
Proof.
  eexists. split; [vm_compute; reflexivity|]. split; [vm_compute; reflexivity|].
  apply link_twice_duplicates; vm_compute; reflexivity.
Defined.

(** Every operation keeps each edge of each task pointing at an existing
    auditor, taxpayer and risk flag. *)
Theorem refs_ok_preserved : forall d op stamp now,
  refs_ok d -> refs_ok (fst (exec d op stamp now)).
Proof.
  intros d op stamp now H. destruct (op_task_id op) as [id|] eqn:Hop.
  - destruct (exec_as_set_task d op id stamp now Hop) as (f & [E | E] & Hf & _ & Ha & Hl);
      rewrite E; [exact H|].
    unfold refs_ok in *. cbn [auditor_ids taxpayer_tins risk_ids set_task].
    apply (set_task_forall (fun t => In (assigned_auditor t) (auditor_ids d)
            /\ In (target_tin t) (taxpayer_tins d)
            /\ Forall (fun r => In r (risk_ids d)) (linked_risks t))); [exact H|].
    intros t (Ht1 & Ht2 & Ht3). destruct (Hf t) as (_ & _ & _ & _ & _ & _ & _ & _ & Htin).
    split; [destruct (Ha t) as [-> | Hin]; assumption|].
    split; [rewrite Htin; exact Ht2|].
    apply Forall_forall. intros r Hr. destruct (Hl t r Hr) as [Hr' | Hr']; [|exact Hr'].
    rewrite Forall_forall in Ht3. exact (Ht3 r Hr').
  - destruct op; cbn [op_task_id] in Hop; try discriminate. cbn [exec].
    unfold create_audit_task.
    destruct (mem (td_taxpayer_tin data) (taxpayer_tins d)) eqn:H1; [|exact H].
    destruct (mem (td_auditor_id data) (auditor_ids d)) eqn:H2; [|exact H].
    cbn [andb fst]. unfold refs_ok in *. cbn [tasks auditor_ids taxpayer_tins risk_ids].
    apply Forall_app. split; [exact H|]. constructor; [|constructor].
    cbn. split; [apply mem_in; exact H2|]. split; [apply mem_in; exact H1|].
    apply Forall_forall. intros r Hr. apply filter_In in Hr. exact (proj1 Hr).
Qed.

Lemma refs_ok_preserved_witness :
  refs_ok status_path_db /\
  refs_ok (fst (exec status_path_db (OpReassign "T1" "AUD1") "2025-01-03 09:00" 400)).
Proof.
  assert (H : refs_ok status_path_db) by (vm_compute; repeat constructor; simpl; tauto).
  split; [exact H | apply refs_ok_preserved; exact H].
Defined.

(** [create_audit_task] adds one to the task count [fetch_auditor_list]
    reports for the chosen auditor and leaves every other count as it was. *)
Theorem create_assigned_count : forall d data uuid now a,
  mem (td_taxpayer_tin data) (taxpayer_tins d) = true ->
  mem (td_auditor_id data) (auditor_ids d) = true ->
  assigned_count (fst (create_audit_task d data uuid now)) a
    = (assigned_count d a + if String.eqb a (td_auditor_id data) then 1 else 0)%nat.
Proof.
  intros d data uuid now a H1 H2.
  destruct (create_appends d data uuid now H1 H2) as (t & -> & _ & _ & Ha).
  unfold assigned_count. cbn [tasks]. rewrite filter_app, length_app. cbn [filter].
  rewrite Ha, String.eqb_sym. destruct (String.eqb a (td_auditor_id data)); reflexivity.
Qed.

Lemma create_assigned_count_witness :
  mem (td_taxpayer_tin demo_data) (taxpayer_tins two_auditors_db) = true /\
  mem (td_auditor_id demo_data) (auditor_ids two_auditors_db) = true /\
  assigned_count (fst (create_audit_task two_auditors_db demo_data "T1" 100)) "AUD1"
    = (assigned_count two_auditors_db "AUD1" + if String.eqb "AUD1" (td_auditor_id demo_data) then 1 else 0)%nat.
Proof.
  split; [vm_compute; reflexivity|]. split; [vm_compute; reflexivity|].
  apply create_assigned_count; vm_compute; reflexivity.
Defined.

Lemma count_set_unique : forall (P : task -> bool) ts id f t,
  NoDup (map TaskID ts) -> find (fun u => String.eqb (TaskID u) id) ts = Some t ->
  (length (filter P (map (fun u => if String.eqb (TaskID u) id then f u else u) ts))
   + (if P t then 1 else 0)
   = length (filter P ts) + (if P (f t) then 1 else 0))%nat.
Proof.
  intros P ts id f t Hnd. induction ts as [|u ts IH]; [discriminate|].
  cbn [map find] in *. inversion Hnd as [|? ? Hnin Hnd']; subst.
  destruct (String.eqb (TaskID u) id) eqn:E.
  - intros H. inversion H. subst u. clear H.
    assert (Hid : map (fun u => if String.eqb (TaskID u) id then f u else u) ts = ts).
    { rewrite <- (map_id ts) at 2. apply map_ext_in. intros u Hu.
      destruct (String.eqb (TaskID u) id) eqn:Eu; [|reflexivity].
      exfalso. apply Hnin. apply String.eqb_eq in E, Eu. rewrite E, <- Eu.
      apply in_map. exact Hu. }
    rewrite Hid. cbn [filter]. destruct (P (f t)), (P t); cbn [length]; lia.
  - intros H. specialize (IH Hnd' H). cbn [filter].
    destruct (P u); cbn [length]; lia.
Qed.

(** Reassigning a task moves it in the counts of [fetch_auditor_list]: when
    task ids are unique, the old auditor's count drops by one and the new
    auditor's grows by one. *)
Theorem reassign_moves_count : forall d id b now t c,
  NoDup (map TaskID (tasks d)) -> find_task d id = Some t -> mem b (auditor_ids d) = true ->
  (assigned_count (fst (reassign_task d id b now)) c
     + (if String.eqb c (assigned_auditor t) then 1 else 0)
   = assigned_count d c + (if String.eqb c b then 1 else 0))%nat.
Proof.
  intros d id b now t c Hnd Hf Hb. unfold reassign_task. rewrite Hb. cbn [fst].
  unfold assigned_count, set_task. cbn [tasks].
  pose proof (count_set_unique (fun u => String.eqb (assigned_auditor u) c) (tasks d) id
                (fun u => with_auditor u b (Some now)) t Hnd Hf) as H.
  cbn [assigned_auditor with_auditor] in H.
  rewrite (String.eqb_sym c (assigned_auditor t)), (String.eqb_sym c b). exact H.
Qed.

Lemma reassign_moves_count_witness :
  let d := fst (create_audit_task two_auditors_db demo_data "T1" 100) in
  NoDup (map TaskID (tasks d)) /\
  exists t, find_task d "T1" = Some t /\ mem "AUD2" (auditor_ids d) = true /\
  (assigned_count (fst (reassign_task d "T1" "AUD2" 200)) "AUD1"
     + (if String.eqb "AUD1" (assigned_auditor t) then 1 else 0)
   = assigned_count d "AUD1" + (if String.eqb "AUD1" "AUD2" then 1 else 0))%nat.
Proof.
  intros d. split; [vm_compute; repeat constructor; simpl; tauto|].
  eexists. split; [vm_compute; reflexivity|]. split; [vm_compute; reflexivity|].
  apply reassign_moves_count; [vm_compute; repeat constructor; simpl; tauto
                              | vm_compute; reflexivity | vm_compute; reflexivity].
Defined.

End TaskWrites.

(** ** The read queries of the task page *)
Section TaskReadProps.
Import Tasks.

Lemma strongly_sorted_impl : forall {A} (R1 R2 : A -> A -> Prop) l,
  (forall u v, R1 u v -> R2 u v) -> StronglySorted R1 l -> StronglySorted R2 l.
Proof.
  intros A R1 R2 l HR H. induction H as [|a l Hs IH Hf]; constructor; [exact IH|].
  eapply Forall_impl; [|exact Hf]. intros v. apply HR.
Qed.

Lemma filter_length_impl : forall {A} (f g : A -> bool) l,
  (forall x, f x = true -> g x = true) -> (length (filter f l) <= length (filter g l))%nat.
Proof.
  intros A f g l H. induction l as [|x l IH]; [reflexivity|]. cbn [filter].
  destruct (f x) eqn:Ef; [rewrite (H x Ef); cbn [length]; lia|].
  destruct (g x); cbn [length]; lia.
Qed.

(** [fetch_auditor_list] lists every auditor once per auditor node, in
    ascending order of assigned tasks, each row carrying its own counts: the
    result is a permutation of the rows of the auditors, and no auditor has
    more tasks in progress than assigned. *)
Theorem fetch_auditor_list_spec : forall d,
  StronglySorted (fun u v => (ar_assignedTasks u <= ar_assignedTasks v)%nat) (fetch_auditor_list d) /\
  Permutation (fetch_auditor_list d)
    (map (fun a => mkAuditorRow a (assigned_count d a) (in_progress_count d a)
                     (capacity (assigned_count d a))) (auditor_ids d)) /\
  Forall (fun r => (ar_inProgress r <= ar_assignedTasks r)%nat) (fetch_auditor_list d).
Proof.
  intros d. unfold fetch_auditor_list. split; [|split].
  - eapply strongly_sorted_impl; [|apply sort_desc_sorted]. intros u v H. cbv beta in H. lia.
  - apply sort_desc_perm.
  - apply Forall_forall. intros r Hr. apply sort_desc_in, in_map_iff in Hr.
    destruct Hr as (a & <- & _). cbn [ar_inProgress ar_assignedTasks].
    unfold in_progress_count, assigned_count. apply filter_length_impl.
    intros t Ht. apply andb_true_iff in Ht. exact (proj1 Ht).
Qed.

Lemma string_compare_le_trans : forall a b c,
  String.compare a b <> Gt -> String.compare b c <> Gt -> String.compare a c <> Gt.
Proof.
  induction a as [|x a IH]; intros [|y b] [|z c] H1 H2; cbn [String.compare] in *;
    try congruence.
  unfold Ascii.compare in *.
  destruct (N.compare_spec (N_of_ascii x) (N_of_ascii y)) as [Hxy|Hxy|Hxy];
  destruct (N.compare_spec (N_of_ascii y) (N_of_ascii z)) as [Hyz|Hyz|Hyz];
  destruct (N.compare_spec (N_of_ascii x) (N_of_ascii z)) as [Hxz|Hxz|Hxz];
    try congruence; try lia; eauto.
Qed.

Lemma string_compare_ge_trans : forall a b c,
  String.compare a b <> Lt -> String.compare b c <> Lt -> String.compare a c <> Lt.
Proof.
  intros a b c H1 H2.
  assert (Hflip : forall u v, String.compare u v <> Lt <-> String.compare v u <> Gt).
  { intros u v. rewrite (String.compare_antisym u v). destruct (String.compare v u); simpl; split; congruence. }
  apply Hflip in H1, H2. apply Hflip. exact (string_compare_le_trans c b a H2 H1).
Qed.

Definition prio_ge (u v : task_row) : Prop := String.compare (atr_priority u) (atr_priority v) <> Lt.

Lemma task_row_before_ge : forall u v, task_row_before u v = true -> prio_ge u v.
Proof. intros u v. unfold task_row_before, prio_ge. destruct (String.compare _ _); congruence. Qed.

Lemma task_row_not_before_ge : forall u v, task_row_before u v = false -> prio_ge v u.
Proof.
  intros u v. unfold task_row_before, prio_ge. rewrite (String.compare_antisym (atr_priority v)).
  destruct (String.compare (atr_priority u) (atr_priority v)); simpl; congruence.
Qed.

Lemma insert_by_in : forall {A} (before : A -> A -> bool) a l x,
  In x (insert_by before a l) <-> a = x \/ In x l.
Proof.
  intros A before a l x. induction l as [|y l IH]; simpl; [tauto|].
  destruct (before a y); simpl; [tauto|]. rewrite IH. tauto.
Qed.

Lemma insert_by_sorted : forall a l,
  StronglySorted prio_ge l -> StronglySorted prio_ge (insert_by task_row_before a l).
Proof.
  intros a l. induction l as [|y l IH]; intros H; cbn [insert_by].
  - constructor; constructor.
  - inversion H as [|? ? Hs Hf]; subst. destruct (task_row_before a y) eqn:E.
    + constructor; [exact H|]. constructor; [apply task_row_before_ge; exact E|].
      eapply Forall_impl; [|exact Hf]. intros z Hz.
      exact (string_compare_ge_trans _ _ _ (task_row_before_ge _ _ E) Hz).
    + constructor; [apply IH; exact Hs|].
      apply Forall_forall. intros z Hz. apply insert_by_in in Hz.
      destruct Hz as [<- | Hz]; [apply task_row_not_before_ge; exact E|].
      rewrite Forall_forall in Hf. exact (Hf z Hz).
Qed.

Lemma sort_by_sorted : forall l, StronglySorted prio_ge (sort_by task_row_before l).
Proof. induction l as [|a l IH]; [constructor|]. apply insert_by_sorted. exact IH. Qed.

Lemma strongly_sorted_app_forall : forall {A} (R : A -> A -> Prop) l1 r l2,
  StronglySorted R (l1 ++ r :: l2) -> Forall (R r) l2.
Proof.
  intros A R l1 r l2. induction l1 as [|x l1 IH]; intros H; inversion H; subst; auto.
Qed.

(** [fetch_auditor_tasks] orders the priorities as strings, descending:
    a row comes before every row whose priority string is smaller, so the
    tasks come as Medium, Low, High, then Critical, and no High, Medium or
    Low task is listed after a Critical one. *)
Theorem auditor_tasks_priority_order : forall d a l1 r1 l2 r2,
  fetch_auditor_tasks d a = l1 ++ r1 :: l2 -> In r2 l2 ->
  String.compare (atr_priority r1) (atr_priority r2) <> Lt /\
  (atr_priority r1 = "Critical"%string -> ~ In (atr_priority r2) ["High"; "Medium"; "Low"]%string).
Proof.
  intros d a l1 r1 l2 r2 H Hin.
  assert (Hs : StronglySorted prio_ge (fetch_auditor_tasks d a)).
  { unfold fetch_auditor_tasks. destruct (mem a (auditor_ids d)); [apply sort_by_sorted | constructor]. }
  rewrite H in Hs. apply strongly_sorted_app_forall in Hs.
  rewrite Forall_forall in Hs. specialize (Hs r2 Hin). unfold prio_ge in Hs.
  split; [exact Hs|]. intros Hc Hp. rewrite Hc in Hs.
  destruct Hp as [Hp | [Hp | [Hp | []]]]; rewrite <- Hp in Hs; apply Hs; reflexivity.
Qed.

Lemma auditor_tasks_priority_order_witness :
  exists l1 r1 l2 r2,
    fetch_auditor_tasks prio_db "AUD1" = l1 ++ r1 :: l2 /\ In r2 l2 /\
    atr_priority r1 = "Critical"%string /\ map atr_priority l1 = ["Low"; "High"]%string /\
    String.compare (atr_priority r1) (atr_priority r2) <> Lt /\
    (atr_priority r1 = "Critical"%string -> ~ In (atr_priority r2) ["High"; "Medium"; "Low"]%string).
Proof.
  exists [prio_row "T2" "Low" 30; prio_row "T3" "High" 20]%string, (prio_row "T1" "Critical" 10),
    [prio_row "T4" "Critical" 40], (prio_row "T4" "Critical" 40).
  split; [vm_compute; reflexivity|]. split; [left; reflexivity|].
  split; [reflexivity|]. split; [reflexivity|].
  apply (auditor_tasks_priority_order prio_db "AUD1" [prio_row "T2" "Low" 30; prio_row "T3" "High" 20]%string
           (prio_row "T1" "Critical" 10) [prio_row "T4" "Critical" 40]);
    [vm_compute; reflexivity | left; reflexivity].
Defined.

End TaskReadProps.
